(** * Lip: the installation transaction of [internal/install/install.go]

    A shallow embedding of [Install] and [placeFiles].  The two functions
    are effectful Go code: they query the registry, launch lifecycle
    commands, read a ZIP archive and write to the filesystem, and they
    return at the first error.  They are modelled here in a state and
    error monad over a [World] that holds the filesystem and the trace of
    the effects performed so far. *)

From Stdlib Require Import Ascii String.
From stdpp Require Import base option list strings gmap fin_maps.

Set Default Proof Using "Type".
Open Scope string_scope.
Open Scope list_scope.

(** ** Errors and results *)

(** One constructor per [return] of an error in the source.  Where the
    source wraps an underlying error with [%w] the cause is kept when it
    comes from this package ([runCommands]) and dropped when it comes from
    a collaborator. *)
Inductive error : Type :=
  | CommandFailed (cmd : string)          (* runCommands *)
  | FailedCheckInstalled                  (* install.go:29 *)
  | AlreadyInstalled (repo : string)      (* install.go:31 *)
  | FailedPreInstall (cause : error)      (* install.go:38 *)
  | FailedAssetURL                        (* install.go:46 *)
  | AssetConfigMismatch                   (* install.go:51 *)
  | FailedPostInstall (cause : error)     (* install.go:70 *)
  | FailedMarshal                         (* install.go:78 *)
  | FailedMetadataDir                     (* install.go:84 *)
  | FailedCreateMetadata                  (* install.go:90 *)
  | FailedGetwd                           (* install.go:107 *)
  | FailedParseWorkspace                  (* install.go:112 *)
  | FailedOpenArchive                     (* install.go:118 *)
  | FailedParseDest                       (* install.go:125 *)
  | DestinationExists (dest : string)     (* install.go:130 *)
  | FailedCreateDestDir                   (* install.go:137 *)
  | FailedParseSrc                        (* install.go:143 *)
  | FailedParseFilePath                   (* install.go:160 *)
  | FailedOpenSource                      (* install.go:167 *)
  | FailedCreateDest                      (* install.go:172 *)
  | FailedCopy.                           (* install.go:177 *)

(** The errors that the [return] statements of [Install] itself produce
    (lines 29-90), as opposed to those of [placeFiles] (lines 107-177). *)
Definition install_error (e : error) : Prop :=
  match e with
  | FailedCheckInstalled | AlreadyInstalled _ | FailedPreInstall _
  | FailedAssetURL | AssetConfigMismatch | FailedPostInstall _
  | FailedMarshal | FailedMetadataDir | FailedCreateMetadata => True
  | _ => False
  end.

(** A Go call either returns normally, returns an error, or panics
    ([path.MustParse]). *)
Inductive result (A : Type) : Type :=
  | Ok (a : A)
  | Err (e : error)
  | Panic.
Arguments Ok {A} a.
Arguments Err {A} e.
Arguments Panic {A}.

(** ** The world: filesystem and effect trace *)

Abbreviation bytes := string (only parsing).

Inductive node : Type :=
  | File (content : bytes)
  | Dir.

(** The filesystem maps a location, the canonical absolute list of
    components of an entry, to what it holds. *)
Abbreviation FS := (gmap (list string) node) (only parsing).

(** The calls that have an effect outside the process, in the order they
    are made. *)
Inductive event : Type :=
  | EvExec (cmd : string)                                 (* a lifecycle command is launched *)
  | EvMkdirAll (dir : string)                             (* os.MkdirAll *)
  | EvCreate (name : string)                              (* os.Create *)
  | EvCopy (entry : string) (name : string) (written : bytes) (* io.Copy *)
  | EvWriteFile (name : string) (data : bytes).           (* os.WriteFile *)

Record World : Type := mkWorld { fs : FS; trace : list event }.

Definition emit (e : event) (w : World) : World :=
  mkWorld (fs w) (trace w ++ [e]).

Definition set_fs (f : FS) (w : World) : World :=
  mkWorld f (trace w).

(** ** The monad *)

Definition M (A : Type) : Type := World → result A * World.

Definition fail {A} (e : error) : M A := λ w, (Err e, w).
Definition panic {A} : M A := λ w, (Panic, w).

#[global] Instance M_ret : MRet M := λ A a w, (Ok a, w).

(** Sequencing stops at the first error or panic, keeping the world that
    the failing call left. *)
#[global] Instance M_bind : MBind M := λ A B k m w,
  match m w with
  | (Ok a, w') => k a w'
  | (Err e, w') => (Err e, w')
  | (Panic, w') => (Panic, w')
  end.

(** [if err != nil { return fmt.Errorf("...: %w", err) }] *)
Definition wrap {A} (f : error → error) (m : M A) : M A :=
  λ w, match m w with
       | (Err e, w') => (Err (f e), w')
       | r => r
       end.

(** A call statement whose returned error is not bound to anything: the
    effects happen, the error is dropped, a panic still unwinds. *)
Definition discard {A} (m : M A) : M unit :=
  λ w, match m w with
       | (Panic, w') => (Panic, w')
       | (_, w') => (Ok tt, w')
       end.

(** A collaborator's [(value, error)] pair, turned into the monad. *)
Definition try {A} (o : option A) (e : error) : M A :=
  match o with Some a => mret a | None => fail e end.

(** ** Collaborators *)

(** The [internal/path] package: paths are opaque values that can be
    parsed, joined, compared and printed. *)
Class PathAPI : Type := {
  Path : Type;
  Parse : string → option Path;
  MakeEmpty : Path;
  IsEmpty : Path → bool;
  Join : Path → Path → Path;
  Equal : Path → Path → bool;
  LocalString : Path → string;
}.

(** The descriptor ([tooth.Metadata]) and the archive ([tooth.Archive]). *)
Record PlaceRule : Type := { Src : string; Dest : string }.
Record tooth_Commands : Type :=
  { PreInstall : list string; PostInstall : list string }.
Record tooth_Files : Type := { Place : list PlaceRule }.

Record tooth_Metadata : Type := {
  ToothRepoPath : string;
  Commands : tooth_Commands;
  AssetURL : option string;       (* the URL's String(), or an error *)
  Files : tooth_Files;
  MarshalJSON : option bytes;     (* the JSON document, or an error *)
}.

Record tooth_Archive {paths : PathAPI} : Type := {
  Metadata : tooth_Metadata;
  FilePath : Path;
  ContentFilePathRoot : Path;
}.

(** An entry of an opened ZIP archive: [f.Name] and what [f.Open] gives. *)
Record zip_File : Type := { Name : string; Open : option bytes }.

(** The operating system, the Go standard library and the context.  Every
    call that can fail for a reason outside the program has an oracle
    that decides it from the current filesystem. *)
Class Platform {paths : PathAPI} : Type := {
  (* canonical location of a path string, relative ones taken from the
     working directory of the process *)
  resolve : string → list string;
  filepath_Dir : string → string;
  url_QueryEscape : string → string;
  os_Getwd : option string;
  zip_OpenReader : FS → string → option (list zip_File);
  (* running one shell command: exit status and the filesystem it leaves *)
  exec : string → FS → bool * FS;
  (* os.MkdirAll: [None] succeeds, [Some n] fails after creating n levels *)
  mkdir_fault : FS → string → option nat;
  create_fault : FS → string → bool;
  (* io.Copy: [None] succeeds, [Some n] fails after writing n bytes *)
  copy_fault : FS → string → bytes → option nat;
  (* os.WriteFile: [None] succeeds, [Some None] fails to open the file,
     [Some (Some n)] fails after writing n bytes *)
  write_fault : FS → string → bytes → option (option nat);
  tooth_IsInstalled : FS → string → option bool;
  ctx_MetadataDir : option Path;
}.

(** ** Standard-library calls *)

(** [strings.HasSuffix] *)
Definition strings_HasSuffix (s suffix : string) : bool :=
  let n := String.length s in
  let m := String.length suffix in
  (m <=? n)%nat && String.eqb (String.substring (n - m) m s) suffix.

(** The non-empty prefixes of a location, shortest first: the directory
    itself and all its ancestors below the root. *)
Fixpoint levels (l : list string) : list (list string) :=
  match l with
  | [] => []
  | x :: l' => [x] :: map (cons x) (levels l')
  end.

(** Creating a directory at every given location that holds nothing yet;
    what exists is left as it is. *)
Definition mkdirs (ls : list (list string)) (f : FS) : FS :=
  foldr (λ l acc, match acc !! l with
                  | None => <[l := Dir]> acc
                  | Some _ => acc
                  end) f ls.

Section Model.
Context {paths : PathAPI} {sys : Platform}.

(** [_, err := os.Stat(name); err == nil] *)
Definition os_Stat (name : string) : M bool :=
  λ w, (Ok (bool_decide (is_Some (fs w !! resolve name))), w).

(** [os.MkdirAll(name, 0755)] *)
Definition os_MkdirAll (name : string) (e : error) : M unit :=
  λ w, let w1 := emit (EvMkdirAll name) w in
       match mkdir_fault (fs w) name with
       | None => (Ok tt, set_fs (mkdirs (levels (resolve name)) (fs w)) w1)
       | Some n =>
           (Err e, set_fs (mkdirs (take n (levels (resolve name))) (fs w)) w1)
       end.

(** [os.Create(name)]: the file is created or truncated. *)
Definition os_Create (name : string) (e : error) : M unit :=
  λ w, let w1 := emit (EvCreate name) w in
       if create_fault (fs w) name then (Err e, w1)
       else (Ok tt, set_fs (<[resolve name := File ""]> (fs w)) w1).

(** [io.Copy(fw, rc)], where [fw] is the file created at [name] and
    [rc] reads the entry [entry] with content [data]. *)
Definition io_Copy (entry name : string) (data : bytes) (e : error) : M unit :=
  λ w, match copy_fault (fs w) name data with
       | None =>
           (Ok tt, set_fs (<[resolve name := File data]> (fs w))
                          (emit (EvCopy entry name data) w))
       | Some n =>
           let written := String.substring 0 n data in
           (Err e, set_fs (<[resolve name := File written]> (fs w))
                          (emit (EvCopy entry name written) w))
       end.

(** [os.WriteFile(name, data, 0644)] *)
Definition os_WriteFile (name : string) (data : bytes) (e : error) : M unit :=
  λ w, let w1 := emit (EvWriteFile name data) w in
       match write_fault (fs w) name data with
       | None => (Ok tt, set_fs (<[resolve name := File data]> (fs w)) w1)
       | Some None => (Err e, w1)
       | Some (Some n) =>
           (Err e, set_fs (<[resolve name := File (String.substring 0 n data)]> (fs w)) w1)
       end.

(** Launching one command line and waiting for it. *)
Definition run_command (cmd : string) : M unit :=
  λ w, let '(ok, f) := exec cmd (fs w) in
       let w1 := set_fs f (emit (EvExec cmd) w) in
       if ok then (Ok tt, w1) else (Err (CommandFailed cmd), w1).

(** Modelled from the spec: [runCommands] is called by [Install] but
    defined in another file of the package.  Section 4.2: the commands
    run strictly in order, the first failing one stops the sequence and
    is surfaced as the cause, an empty sequence succeeds. *)
Fixpoint runCommands (commands : list string) : M unit :=
  match commands with
  | [] => mret tt
  | cmd :: rest => run_command cmd;; runCommands rest
  end.

(** ** [placeFiles] (install.go:99-190) *)

(** Lines 150-186: the scan of the archive entries for one rule, in
    enumeration order.  [src] is the expected source path and [dest]
    the absolute destination. *)
Fixpoint scanArchive (src dest : Path) (files : list zip_File) : M unit :=
  match files with
  | [] => mret tt
  | f :: rest =>
      if strings_HasSuffix (Name f) "/" then scanArchive src dest rest
      else
        filePath ← try (Parse (Name f)) FailedParseFilePath;
        (if Equal filePath src then
           rc ← try (Open f) FailedOpenSource;
           os_Create (LocalString dest) FailedCreateDest;;
           io_Copy (Name f) (LocalString dest) rc FailedCopy
         else mret tt);;
        scanArchive src dest rest
  end.

(** Lines 123-186: the body of the loop over the placement rules. *)
Definition placeOne (workspaceDir assetContentFilePathRoot : Path)
    (files : list zip_File) (place : PlaceRule) : M unit :=
  relDest ← try (Parse (Dest place)) FailedParseDest;
  found ← os_Stat (LocalString relDest);
  if found : bool then fail (DestinationExists (LocalString relDest))
  else
    let dest := Join workspaceDir relDest in
    os_MkdirAll (filepath_Dir (LocalString dest)) FailedCreateDestDir;;
    relSrc ← try (Parse (Src place)) FailedParseSrc;
    let src := Join assetContentFilePathRoot relSrc in
    scanArchive src dest files.

(** Line 122: the loop itself; the first rule that fails ends it. *)
Fixpoint placeRules (workspaceDir assetContentFilePathRoot : Path)
    (files : list zip_File) (rules : list PlaceRule) : M unit :=
  match rules with
  | [] => mret tt
  | place :: rest =>
      placeOne workspaceDir assetContentFilePathRoot files place;;
      placeRules workspaceDir assetContentFilePathRoot files rest
  end.

Definition zip_open (name : string) : M (list zip_File) :=
  λ w, try (zip_OpenReader (fs w) name) FailedOpenArchive w.

Definition placeFiles (metadata : tooth_Metadata)
    (assetArchiveFilePath assetContentFilePathRoot : Path) : M unit :=
  workspaceDirStr ← try os_Getwd FailedGetwd;
  workspaceDir ← try (Parse workspaceDirStr) FailedParseWorkspace;
  r ← zip_open (LocalString assetArchiveFilePath);
  placeRules workspaceDir assetContentFilePathRoot r (Place (Files metadata)).

(** What the specification says a rule selects: a non-directory entry
    whose parsed name equals the expected source path. *)
Definition is_match (src : Path) (f : zip_File) : bool :=
  negb (strings_HasSuffix (Name f) "/")
  && match Parse (Name f) with
     | Some filePath => Equal filePath src
     | None => false
     end.

(** The calls that copy one entry to the file [name]. *)
Definition copy_events (name : string) (f : zip_File) : list event :=
  [EvCreate name; EvCopy (Name f) name (default "" (Open f))].

(** An effect of the scan for one rule: the creation of the destination,
    or a copy, complete or not, of a matching entry of the archive. *)
Definition scan_event (src : Path) (name : string) (files : list zip_File)
    (e : event) : Prop :=
  e = EvCreate name
  ∨ ∃ f data, f ∈ files ∧ is_match src f = true ∧ e = EvCopy (Name f) name data.

(** The filesystem after the entries [copied] were copied, one after the
    other, to the file [name]: the last one stays. *)
Definition overwritten (name : string) (copied : list zip_File) (f : FS) : FS :=
  match last copied with
  | Some e => <[resolve name := File (default "" (Open e))]> f
  | None => f
  end.

(** ** [Install] (install.go:20-96) *)

Definition is_installed (repo : string) : M bool :=
  λ w, try (tooth_IsInstalled (fs w) repo) FailedCheckInstalled w.

(** [path.MustParse] panics where [path.Parse] returns an error. *)
Definition MustParse (s : string) : M Path :=
  match Parse s with Some p => mret p | None => panic end.

(** Line 49-50: the condition under which the asset-location check
    returns its error. *)
Definition asset_mismatch (assetArchiveFilePath : Path) (assetURL : string) : bool :=
  (IsEmpty assetArchiveFilePath && negb (String.eqb assetURL ""))
  || (negb (IsEmpty assetArchiveFilePath) && String.eqb assetURL "").

(** Lines 74-93, step 5: the record file is written. *)
Definition createMetadataFile (metadata : tooth_Metadata) : M unit :=
  jsonBytes ← try (MarshalJSON metadata) FailedMarshal;
  let metadataFileName := url_QueryEscape (ToothRepoPath metadata) +:+ ".json" in
  metadataDir ← try ctx_MetadataDir FailedMetadataDir;
  fileName ← MustParse metadataFileName;
  let metadataPath := Join metadataDir fileName in
  os_WriteFile (LocalString metadataPath) jsonBytes FailedCreateMetadata.

Definition Install (archive : tooth_Archive) (assetArchiveFilePath : Path) : M unit :=
  (* 1. Check if the tooth is already installed. *)
  installed ← is_installed (ToothRepoPath (Metadata archive));
  if installed : bool
  then fail (AlreadyInstalled (ToothRepoPath (Metadata archive)))
  else
    (* 2. Run pre-install commands. *)
    wrap FailedPreInstall
      (runCommands (PreInstall (Commands (Metadata archive))));;
    (* 3. Extract and place files. *)
    assetURL ← try (AssetURL (Metadata archive)) FailedAssetURL;
    if asset_mismatch assetArchiveFilePath assetURL
    then fail AssetConfigMismatch
    else
      (if IsEmpty assetArchiveFilePath
       then discard (placeFiles (Metadata archive) (FilePath archive)
                       (ContentFilePathRoot archive))
       else discard (placeFiles (Metadata archive) assetArchiveFilePath
                       MakeEmpty));;
      (* 4. Run post-install commands. *)
      wrap FailedPostInstall
        (runCommands (PostInstall (Commands (Metadata archive))));;
      (* 5. Create metadata file. *)
      createMetadataFile (Metadata archive).

(** The archive and the content root that line 54-63 hands to
    [placeFiles]. *)
Definition asset_source (archive : tooth_Archive) (assetArchiveFilePath : Path)
    : Path * Path :=
  if IsEmpty assetArchiveFilePath
  then (FilePath archive, ContentFilePathRoot archive)
  else (assetArchiveFilePath, MakeEmpty).

(** The world after the placement step, whatever [placeFiles] returned. *)
Definition after_placement (archive : tooth_Archive) (p : Path) (w : World) : World :=
  (placeFiles (Metadata archive) (asset_source archive p).1
     (asset_source archive p).2 w).2.

(** The path of the record file of a descriptor, when the metadata
    directory is known and the file name parses. *)
Definition record_path (metadata : tooth_Metadata) : option string :=
  metadataDir ← ctx_MetadataDir;
  fileName ← Parse (url_QueryEscape (ToothRepoPath metadata) +:+ ".json");
  Some (LocalString (Join metadataDir fileName)).

(** ** Vocabulary for the placement step *)

(** The effects [placeFiles] has: directories and files, never a command
    and never [os.WriteFile]. *)
Definition placement_event (e : event) : Prop :=
  match e with
  | EvMkdirAll _ | EvCreate _ | EvCopy _ _ _ => True
  | EvExec _ | EvWriteFile _ _ => False
  end.

(** Line 133: the location a rule writes to, when its destination
    parses. *)
Definition dest_loc (workspaceDir : Path) (place : PlaceRule)
    : option (list string) :=
  relDest ← Parse (Dest place);
  Some (resolve (LocalString (Join workspaceDir relDest))).

(** Line 136: the levels of the directory that a rule asks [os.MkdirAll]
    to create. *)
Definition parent_levels (workspaceDir : Path) (place : PlaceRule)
    : list (list string) :=
  match Parse (Dest place) with
  | Some relDest =>
      levels (resolve (filepath_Dir (LocalString (Join workspaceDir relDest))))
  | None => []
  end.

(** The path that line 129 checks and the path that line 170 writes name
    the same entry: the relative destination is taken from the working
    directory, which is the workspace. *)
Definition checked_is_written (workspaceDir : Path) (place : PlaceRule) : Prop :=
  ∀ relDest, Parse (Dest place) = Some relDest →
    resolve (LocalString relDest)
    = resolve (LocalString (Join workspaceDir relDest)).

(** The first entry that line 158 cannot parse, if line 152 does not skip
    it. *)
Definition unparsable (f : zip_File) : Prop :=
  strings_HasSuffix (Name f) "/" = false ∧ Parse (Name f) = None.

(** Lines 105-113: the workspace, the parsed working directory of the
    process. *)
Definition workspace : option Path :=
  workspaceDirStr ← os_Getwd; Parse workspaceDirStr.

End Model.

(** ** A concrete platform

    One instance of the collaborators, small enough to run: slash-separated
    paths, a process whose working directory is [/work], an archive table,
    no input/output faults, and a registry that looks for the record file
    as section 3 of the specification describes it. *)
Module Unix.

Definition is_slash (c : ascii) : bool := Ascii.eqb c "/"%char.

(** The components of a path string; empty components and [.] are
    dropped. *)
Fixpoint split_from (cur s : string) : list string :=
  let close := if String.eqb cur "" || String.eqb cur "." then [] else [cur] in
  match s with
  | EmptyString => close
  | String c s' =>
      if is_slash c then close ++ split_from "" s'
      else split_from (cur +:+ String c "") s'
  end.
Definition split (s : string) : list string := split_from "" s.

Record upath : Type := { rooted : bool; items : list string }.

Definition render (p : upath) : string :=
  (if rooted p then "/" else "") +:+ String.concat "/" (items p).

Definition parse (s : string) : option upath :=
  Some {| rooted := String.prefix "/" s; items := split s |}.

#[global] Instance path_api : PathAPI := {|
  Path := upath;
  Parse := parse;
  MakeEmpty := {| rooted := false; items := [] |};
  IsEmpty p := bool_decide (items p = []);
  Join p q := {| rooted := rooted p; items := items p ++ items q |};
  Equal p q := Bool.eqb (rooted p) (rooted q) && bool_decide (items p = items q);
  LocalString := render;
|}.

Definition cwd : string := "/work".

Definition unix_resolve (s : string) : list string :=
  if String.prefix "/" s then split s else split cwd ++ split s.

Definition unix_Dir (s : string) : string :=
  let parent := removelast (split s) in
  if String.prefix "/" s then "/" +:+ String.concat "/" parent
  else match parent with [] => "." | _ => String.concat "/" parent end.

(** [url.QueryEscape]: letters, digits and [-_.~] stay, a space becomes
    [+], every other byte becomes [%XX]. *)
Definition hex_digit (n : N) : ascii :=
  ascii_of_N (if (n <? 10)%N then 48 + n else 55 + n).

Definition unreserved (c : ascii) : bool :=
  let n := N_of_ascii c in
  ((48 <=? n) && (n <=? 57) || (65 <=? n) && (n <=? 90)
   || (97 <=? n) && (n <=? 122) || (n =? 45) || (n =? 95)
   || (n =? 46) || (n =? 126))%N.

Fixpoint query_escape (s : string) : string :=
  match s with
  | EmptyString => ""
  | String c s' =>
      let n := N_of_ascii c in
      (if unreserved c then String c ""
       else if (n =? 32)%N then "+"
       else String "%"%char
              (String (hex_digit (n / 16)) (String (hex_digit (n mod 16)) "")))
      +:+ query_escape s'
  end.

Definition metadata_dir : upath :=
  {| rooted := true; items := ["work"; ".lip"; "metadata"] |}.

Definition record_name (repo : string) : string :=
  render {| rooted := true;
            items := items metadata_dir ++ split (query_escape repo +:+ ".json") |}.

(** The archives that can be opened, by file name. *)
Definition archive_table : Type := list (string * list zip_File).

Fixpoint open_archive (t : archive_table) (name : string) : option (list zip_File) :=
  match t with
  | [] => None
  | (n, files) :: t' => if String.eqb n name then Some files else open_archive t' name
  end.

(** The only command that fails is [false]; no command touches the
    filesystem. *)
Definition unix_exec (cmd : string) (f : FS) : bool * FS :=
  (negb (String.eqb cmd "false"), f).

Definition platform (t : archive_table) : Platform := {|
  resolve := unix_resolve;
  filepath_Dir := unix_Dir;
  url_QueryEscape := query_escape;
  os_Getwd := Some cwd;
  zip_OpenReader _ name := open_archive t name;
  exec := unix_exec;
  mkdir_fault _ _ := None;
  create_fault _ _ := false;
  copy_fault _ _ _ := None;
  write_fault _ _ _ := None;
  tooth_IsInstalled f repo :=
    Some (bool_decide (is_Some (f !! unix_resolve (record_name repo))));
  ctx_MetadataDir := Some metadata_dir;
|}.

(** The scenario of section 8 of the specification: an archive with
    the entry [bin/tool], and a descriptor that places it at [tool]. *)
Definition tool_zip : list zip_File :=
  [ {| Name := "bin/"; Open := Some "" |};
    {| Name := "bin/tool"; Open := Some "X" |} ].

(** An archive in which two entries have the same parsed name. *)
Definition twice_zip : list zip_File :=
  [ {| Name := "bin/"; Open := Some "" |};
    {| Name := "bin/tool"; Open := Some "X" |};
    {| Name := "bin/tools"; Open := Some "Z" |};
    {| Name := "./bin/tool"; Open := Some "Y" |} ].

Definition table : archive_table :=
  [("/dl/abc.tth", tool_zip); ("/dl/twice.zip", twice_zip)].

Definition unix : Platform := platform table.

Definition tooth_path : upath := {| rooted := true; items := ["dl"; "abc.tth"] |}.
Definition twice_path : upath := {| rooted := true; items := ["dl"; "twice.zip"] |}.
Definition missing_path : upath := {| rooted := true; items := ["dl"; "gone.tth"] |}.
Definition work : upath := {| rooted := true; items := ["work"] |}.

Definition descriptor (url : string) (pre post : list string)
    (rules : list PlaceRule) : tooth_Metadata := {|
  ToothRepoPath := "a.b/c";
  Commands := {| PreInstall := pre; PostInstall := post |};
  AssetURL := Some url;
  Files := {| Place := rules |};
  MarshalJSON := Some "{}";
|}.

Definition tooth (file : upath) (md : tooth_Metadata) : tooth_Archive :=
  {| Metadata := md; FilePath := file; ContentFilePathRoot := MakeEmpty |}.

Definition tool_rule : PlaceRule := {| Src := "bin/tool"; Dest := "tool" |}.
Definition copy_rule : PlaceRule := {| Src := "bin/tool"; Dest := "opt/copy" |}.
Definition nomatch_rule : PlaceRule := {| Src := "bin/none"; Dest := "a/b/none" |}.

(** An empty filesystem, one where [/work/tool] is taken, and one where
    the record of [a.b/c] is present. *)
Definition fresh : World := mkWorld ∅ [].
Definition occupied : World :=
  mkWorld {[ ["work"; "tool"] := File "old" ]} [].
Definition recorded : World :=
  mkWorld {[ ["work"; ".lip"; "metadata"; "a.b%2Fc.json"] := File "{}" ]} [].

Definition record_file : string := "/work/.lip/metadata/a.b%2Fc.json".

(** The archive and the rule of the exact-match example of section 8. *)
Definition ab_zip : list zip_File :=
  [ {| Name := "a/b.txt"; Open := Some "B" |};
    {| Name := "a/bb.txt"; Open := Some "BB" |} ].
Definition ab_root : upath := {| rooted := false; items := ["a"] |}.
Definition ab_rule : PlaceRule := {| Src := "b.txt"; Dest := "out.txt" |}.

(** The worlds that some of the runs below end in. *)
Definition placed_twice : World :=
  (placeOne (sys := unix) work MakeEmpty twice_zip tool_rule fresh).2.
Definition placed_both : World :=
  (placeRules (sys := unix) work MakeEmpty twice_zip [copy_rule] placed_twice).2.

(** A workspace that holds a file no rule names. *)
Definition with_notes : World :=
  mkWorld {[ ["work"; "notes.txt"] := File "n" ]} [].

End Unix.

(** ** A platform whose path parser refuses some strings

    The same as [Unix], except that [path.Parse] returns an error for the
    strings that contain a given character. *)
Module Picky.
Import Unix.

Fixpoint contains (c : ascii) (s : string) : bool :=
  match s with
  | EmptyString => false
  | String c' s' => Ascii.eqb c c' || contains c s'
  end.

Definition path_api (bad : ascii) : PathAPI := {|
  Path := upath;
  Parse s := if contains bad s then None else parse s;
  MakeEmpty := {| rooted := false; items := [] |};
  IsEmpty p := bool_decide (items p = []);
  Join p q := {| rooted := rooted p; items := items p ++ items q |};
  Equal p q := Bool.eqb (rooted p) (rooted q) && bool_decide (items p = items q);
  LocalString := render;
|}.

Definition platform (bad : ascii) (t : archive_table)
    : Platform (paths := path_api bad) :=
  @Build_Platform (path_api bad)
    unix_resolve unix_Dir query_escape (Some cwd)
    (λ _ name, open_archive t name)
    unix_exec
    (λ _ _, None) (λ _ _, false) (λ _ _ _, None) (λ _ _ _, None)
    (λ f repo,
       Some (bool_decide (is_Some (f !! unix_resolve (record_name repo)))))
    (Some metadata_dir).

Definition tooth (bad : ascii) (md : tooth_Metadata)
    : tooth_Archive (paths := path_api bad) :=
  @Build_tooth_Archive (path_api bad) md tooth_path
    {| rooted := false; items := [] |}.

Definition no_path : upath := {| rooted := false; items := [] |}.

(** An archive with an entry named like a drive path. *)
Definition drive_zip : list zip_File :=
  [ {| Name := "bin/tool"; Open := Some "X" |};
    {| Name := "C:/boot"; Open := Some "B" |} ].

End Picky.

(** * Properties *)

(** ** The monad and the command runner *)

Lemma bind_run {A B} (m : M A) (k : A → M B) (w : World) :
  (m ≫= k) w =
  match m w with
  | (Ok a, w') => k a w'
  | (Err e, w') => (Err e, w')
  | (Panic, w') => (Panic, w')
  end.
Proof. reflexivity. Qed.

Lemma try_run {A} (o : option A) (e : error) (w : World) :
  try o e w = (match o with Some a => Ok a | None => Err e end, w).
Proof. by destruct o. Qed.

Section CommandRunner.
Context {paths : PathAPI} {sys : Platform}.

Lemma run_command_run cmd w :
  run_command cmd w =
  ((if (exec cmd (fs w)).1 then Ok tt else Err (CommandFailed cmd)),
   mkWorld (exec cmd (fs w)).2 (trace w ++ [EvExec cmd])).
Proof.
  unfold run_command. by destruct (exec cmd (fs w)) as [[] f].
Qed.

(** A successful run launched every command, in order, and nothing else. *)
Lemma runCommands_ok_trace cmds : ∀ w w',
  runCommands cmds w = (Ok tt, w') → trace w' = trace w ++ map EvExec cmds.
Proof.
  induction cmds as [|cmd rest IH]; intros w w' Hrun; simpl in Hrun.
  - injection Hrun as <-. by rewrite app_nil_r.
  - rewrite bind_run, run_command_run in Hrun.
    destruct (exec cmd (fs w)).1; [|done].
    apply IH in Hrun. simpl in Hrun. by rewrite Hrun, <- app_assoc.
Qed.

(** Whatever the outcome, the trace grows by the commands launched: an
    initial segment of the list. *)
Lemma runCommands_trace cmds : ∀ w,
  ∃ n, trace (runCommands cmds w).2 = trace w ++ map EvExec (take n cmds).
Proof.
  induction cmds as [|cmd rest IH]; intros w; simpl.
  - exists 0. by rewrite app_nil_r.
  - rewrite bind_run, run_command_run.
    destruct (exec cmd (fs w)).1.
    + destruct (IH (mkWorld (exec cmd (fs w)).2 (trace w ++ [EvExec cmd])))
        as [n Hn].
      exists (S n). rewrite Hn. simpl. by rewrite <- app_assoc.
    + by exists 1.
Qed.

Lemma runCommands_no_panic cmds : ∀ w, (runCommands cmds w).1 ≠ Panic.
Proof.
  induction cmds as [|cmd rest IH]; intros w; simpl; [done|].
  rewrite bind_run, run_command_run.
  destruct (exec cmd (fs w)).1; [apply IH | done].
Qed.

End CommandRunner.

(** ** Placement never panics *)

Section NoPanic.
Context {paths : PathAPI} {sys : Platform}.

Lemma copy_entry_no_panic (f : zip_File) dest w :
  ((rc ← try (Open f) FailedOpenSource;
    os_Create (LocalString dest) FailedCreateDest;;
    io_Copy (Name f) (LocalString dest) rc FailedCopy) w).1 ≠ Panic.
Proof.
  rewrite bind_run, try_run. destruct (Open f) as [rc|]; [|done].
  rewrite bind_run. unfold os_Create, io_Copy.
  destruct (create_fault _ _); [done|].
  by destruct (copy_fault _ _ _).
Qed.

Lemma scanArchive_no_panic src dest files : ∀ w,
  (scanArchive src dest files w).1 ≠ Panic.
Proof.
  induction files as [|f rest IH]; intros w; simpl; [done|].
  destruct (strings_HasSuffix _ _); [apply IH|].
  rewrite bind_run, try_run. destruct (Parse (Name f)) as [filePath|]; [|done].
  rewrite bind_run. destruct (Equal filePath src).
  - pose proof (copy_entry_no_panic f dest w) as Hc.
    destruct ((rc ← try (Open f) FailedOpenSource;
               os_Create (LocalString dest) FailedCreateDest;;
               io_Copy (Name f) (LocalString dest) rc FailedCopy) w)
      as [[[]|e|] w1]; [apply IH|done|done].
  - apply IH.
Qed.

Lemma placeOne_no_panic wd root files place w :
  (placeOne wd root files place w).1 ≠ Panic.
Proof.
  unfold placeOne. rewrite bind_run, try_run.
  destruct (Parse (Dest place)) as [relDest|]; [|done].
  rewrite bind_run. unfold os_Stat. case_bool_decide; [done|].
  rewrite bind_run. unfold os_MkdirAll.
  destruct (mkdir_fault _ _); [done|].
  rewrite bind_run, try_run.
  destruct (Parse (Src place)) as [relSrc|]; [|done].
  apply scanArchive_no_panic.
Qed.

Lemma placeRules_no_panic wd root files rules : ∀ w,
  (placeRules wd root files rules w).1 ≠ Panic.
Proof.
  induction rules as [|place rest IH]; intros w; simpl; [done|].
  rewrite bind_run. pose proof (placeOne_no_panic wd root files place w) as Hp.
  destruct (placeOne wd root files place w) as [[[]|e|] w1];
    [apply IH|done|done].
Qed.

Lemma placeFiles_no_panic md p root w : (placeFiles md p root w).1 ≠ Panic.
Proof.
  unfold placeFiles. rewrite bind_run, try_run.
  destruct os_Getwd as [wds|]; [|done].
  rewrite bind_run, try_run. destruct (Parse wds) as [wd|]; [|done].
  rewrite bind_run. unfold zip_open. rewrite try_run.
  destruct (zip_OpenReader _ _) as [r|]; [|done].
  apply placeRules_no_panic.
Qed.

(** So the call statement that drops the error of [placeFiles] always
    falls through to the next statement. *)
Lemma discard_placeFiles md p root w :
  discard (placeFiles md p root) w = (Ok tt, (placeFiles md p root w).2).
Proof.
  unfold discard. pose proof (placeFiles_no_panic md p root w) as Hp.
  by destruct (placeFiles md p root w) as [[[]|e|] w1].
Qed.

End NoPanic.

(** ** The steps of [Install] *)

Section InstallSteps.
Context {paths : PathAPI} {sys : Platform}.
Implicit Types (archive : tooth_Archive) (p : Path) (w : World).

(** [Install], statement by statement. *)
Lemma Install_run archive p w :
  Install archive p w =
  let md := Metadata archive in
  match tooth_IsInstalled (fs w) (ToothRepoPath md) with
  | None => (Err FailedCheckInstalled, w)
  | Some true => (Err (AlreadyInstalled (ToothRepoPath md)), w)
  | Some false =>
      match runCommands (PreInstall (Commands md)) w with
      | (Err e, w1) => (Err (FailedPreInstall e), w1)
      | (Panic, w1) => (Panic, w1)
      | (Ok _, w1) =>
          match AssetURL md with
          | None => (Err FailedAssetURL, w1)
          | Some assetURL =>
              if asset_mismatch p assetURL then (Err AssetConfigMismatch, w1)
              else
                match runCommands (PostInstall (Commands md))
                        (after_placement archive p w1) with
                | (Err e, w3) => (Err (FailedPostInstall e), w3)
                | (Panic, w3) => (Panic, w3)
                | (Ok _, w3) => createMetadataFile md w3
                end
          end
      end
  end.
Proof.
  unfold Install. cbv zeta. rewrite bind_run. unfold is_installed.
  rewrite try_run.
  destruct (tooth_IsInstalled _ _) as [[|]|]; [done| |done].
  rewrite bind_run. unfold wrap at 1.
  destruct (runCommands (PreInstall _) w) as [[[]|e|] w1]; [|done|done].
  rewrite bind_run, try_run.
  destruct (AssetURL _) as [assetURL|]; [|done].
  destruct (asset_mismatch p assetURL); [done|].
  rewrite bind_run. unfold after_placement, asset_source.
  destruct (IsEmpty p); rewrite discard_placeFiles; simpl;
    rewrite bind_run; unfold wrap;
    by destruct (runCommands (PostInstall _) _) as [[[]|e|] w3].
Qed.

Lemma createMetadataFile_run md w :
  createMetadataFile md w =
  match MarshalJSON md with
  | None => (Err FailedMarshal, w)
  | Some jsonBytes =>
      match ctx_MetadataDir with
      | None => (Err FailedMetadataDir, w)
      | Some metadataDir =>
          match Parse (url_QueryEscape (ToothRepoPath md) +:+ ".json") with
          | None => (Panic, w)
          | Some fileName =>
              os_WriteFile (LocalString (Join metadataDir fileName)) jsonBytes
                FailedCreateMetadata w
          end
      end
  end.
Proof.
  unfold createMetadataFile. rewrite bind_run, try_run.
  destruct (MarshalJSON md); [|done]. rewrite bind_run, try_run.
  destruct ctx_MetadataDir; [|done]. rewrite bind_run. unfold MustParse.
  by destruct (Parse _).
Qed.

Lemma createMetadataFile_not_config md w :
  (createMetadataFile md w).1 ≠ Err AssetConfigMismatch.
Proof.
  rewrite createMetadataFile_run.
  destruct (MarshalJSON md); [|done]. destruct ctx_MetadataDir; [|done].
  destruct (Parse _); [|done]. unfold os_WriteFile.
  by destruct (write_fault _ _ _) as [[]|].
Qed.

Lemma asset_mismatch_spec p assetURL :
  asset_mismatch p assetURL = true ↔
  (IsEmpty p = true ∧ assetURL ≠ "") ∨ (IsEmpty p = false ∧ assetURL = "").
Proof.
  unfold asset_mismatch.
  destruct (IsEmpty p), (String.eqb_spec assetURL ""); simpl;
    intuition congruence.
Qed.

End InstallSteps.

(** ** The asset-location check *)

Section AssetCheck.
Context {paths : PathAPI} {sys : Platform}.
Implicit Types (archive : tooth_Archive) (p : Path) (w : World).

(** The configuration error comes from line 51 only: the duplicate check
    and the pre-install commands have passed, and the world is the one
    the pre-install commands left. *)
Lemma config_error_inv archive p w :
  (Install archive p w).1 = Err AssetConfigMismatch →
  tooth_IsInstalled (fs w) (ToothRepoPath (Metadata archive)) = Some false
  ∧ runCommands (PreInstall (Commands (Metadata archive))) w
    = (Ok tt, (Install archive p w).2)
  ∧ ∃ assetURL, AssetURL (Metadata archive) = Some assetURL
      ∧ asset_mismatch p assetURL = true.
Proof.
  rewrite Install_run. cbv zeta.
  destruct (tooth_IsInstalled _ _) as [[|]|]; [done| |done].
  destruct (runCommands (PreInstall _) w) as [[[]|e|] w1]; [|done|done].
  destruct (AssetURL _) as [assetURL|]; [|done].
  destruct (asset_mismatch p assetURL) eqn:Hm.
  - intros _. split; [done|]. split; [done|]. by exists assetURL.
  - intros Hcfg. exfalso.
    destruct (runCommands (PostInstall _) _) as [[[]|e|] w3]; [|done|done].
    by apply createMetadataFile_not_config in Hcfg.
Qed.

Lemma config_error_intro archive p w assetURL :
  tooth_IsInstalled (fs w) (ToothRepoPath (Metadata archive)) = Some false →
  (runCommands (PreInstall (Commands (Metadata archive))) w).1 = Ok tt →
  AssetURL (Metadata archive) = Some assetURL →
  asset_mismatch p assetURL = true →
  (Install archive p w).1 = Err AssetConfigMismatch.
Proof.
  intros Hi Hpre Hu Hm. rewrite Install_run. cbv zeta. rewrite Hi.
  destruct (runCommands (PreInstall _) w) as [[[]|e|] w1]; simpl in Hpre;
    [|done|done].
  by rewrite Hu, Hm.
Qed.

(** C2 (as amended): [Install] fails with the configuration error
    exactly when the duplicate check and the pre-install commands have
    passed, the asset URL is available, and exactly one of the supplied
    asset-archive path and the asset URL is empty.  When both are empty,
    or both are non-empty, no configuration error is raised. *)
Theorem Install_config_error_iff archive p w :
  ((Install archive p w).1 = Err AssetConfigMismatch ↔
   tooth_IsInstalled (fs w) (ToothRepoPath (Metadata archive)) = Some false
   ∧ (runCommands (PreInstall (Commands (Metadata archive))) w).1 = Ok tt
   ∧ ∃ assetURL, AssetURL (Metadata archive) = Some assetURL
       ∧ ((IsEmpty p = true ∧ assetURL ≠ "")
          ∨ (IsEmpty p = false ∧ assetURL = "")))
  ∧ (∀ assetURL, AssetURL (Metadata archive) = Some assetURL →
       (IsEmpty p = true ∧ assetURL = "")
       ∨ (IsEmpty p = false ∧ assetURL ≠ "") →
       (Install archive p w).1 ≠ Err AssetConfigMismatch).
Proof.
  split; [split|].
  - intros Hcfg.
    destruct (config_error_inv _ _ _ Hcfg) as (Hi & Hpre & u & Hu & Hm).
    split; [done|]. split; [by rewrite Hpre|].
    exists u. split; [done|]. by apply asset_mismatch_spec.
  - intros (Hi & Hpre & u & Hu & Hm).
    apply (config_error_intro _ _ _ u); try done. by apply asset_mismatch_spec.
  - intros u Hu Hpair Hcfg.
    destruct (config_error_inv _ _ _ Hcfg) as (_ & _ & u' & Hu' & Hm).
    assert (u' = u) as -> by congruence.
    apply asset_mismatch_spec in Hm. intuition congruence.
Qed.

(** C3 (as amended): when [Install] fails with the configuration error,
    the pre-install commands have all been launched, in order, and have
    succeeded, and that is everything that happened: the world is the
    one the pre-install commands left, so no file has been placed, no
    post-install command has run and no record has been written. *)
Theorem Install_config_error_after_pre_install archive p w :
  (Install archive p w).1 = Err AssetConfigMismatch →
  runCommands (PreInstall (Commands (Metadata archive))) w
    = (Ok tt, (Install archive p w).2)
  ∧ trace (Install archive p w).2
    = trace w ++ map EvExec (PreInstall (Commands (Metadata archive))).
Proof.
  intros Hcfg. destruct (config_error_inv _ _ _ Hcfg) as (_ & Hpre & _).
  split; [done|]. by apply runCommands_ok_trace.
Qed.

(** C4 (as amended): with a non-empty asset URL and an empty supplied
    path, or an empty asset URL and a non-empty supplied path, [Install]
    fails; the failure is the configuration error whenever the duplicate
    check and the pre-install commands have passed. *)
Theorem Install_exclusive_pairing_fails archive p w assetURL :
  AssetURL (Metadata archive) = Some assetURL →
  (assetURL ≠ "" ∧ IsEmpty p = true) ∨ (assetURL = "" ∧ IsEmpty p = false) →
  (∃ e, (Install archive p w).1 = Err e)
  ∧ (tooth_IsInstalled (fs w) (ToothRepoPath (Metadata archive)) = Some false →
     (runCommands (PreInstall (Commands (Metadata archive))) w).1 = Ok tt →
     (Install archive p w).1 = Err AssetConfigMismatch).
Proof.
  intros Hu Hpair.
  assert (asset_mismatch p assetURL = true) as Hm.
  { apply asset_mismatch_spec. intuition. }
  split.
  - rewrite Install_run. cbv zeta.
    destruct (tooth_IsInstalled _ _) as [[|]|]; [by eexists| |by eexists].
    pose proof (runCommands_no_panic
                  (PreInstall (Commands (Metadata archive))) w) as Hnp.
    destruct (runCommands (PreInstall _) w) as [[[]|e|] w1]; simpl in *;
      [|by eexists|done].
    rewrite Hu, Hm. by eexists.
  - intros Hi Hpre. by apply (config_error_intro _ _ _ assetURL).
Qed.

(** C6: installing an identity that the registry reports as installed
    fails with the already-installed error and leaves the world as it
    was: no command is launched and nothing is written. *)
Theorem Install_already_installed archive p w :
  tooth_IsInstalled (fs w) (ToothRepoPath (Metadata archive)) = Some true →
  Install archive p w
    = (Err (AlreadyInstalled (ToothRepoPath (Metadata archive))), w).
Proof. intros Hi. rewrite Install_run. cbv zeta. by rewrite Hi. Qed.

End AssetCheck.

(** ** Directories *)

Lemma mkdirs_lookup (ls : list (list string)) (f : gmap (list string) node)
    (l : list string) :
  mkdirs ls f !! l =
  match f !! l with
  | Some x => Some x
  | None => if decide (l ∈ ls) then Some Dir else None
  end.
Proof.
  induction ls as [|a ls IH]; simpl.
  - by destruct (f !! l).
  - destruct (decide (l = a)) as [->|Hne].
    + assert (a ∈ a :: ls) as Hhd by (apply elem_of_cons; by left).
      destruct (mkdirs ls f !! a) as [x|] eqn:Ha.
      * rewrite Ha. rewrite IH in Ha. destruct (f !! a); [done|].
        rewrite decide_True by done. case_decide; congruence.
      * rewrite lookup_insert_eq. rewrite IH in Ha.
        destruct (f !! a); [done|]. by rewrite decide_True.
    + assert ((match mkdirs ls f !! a with
               | Some _ => mkdirs ls f
               | None => <[a:=Dir]> (mkdirs ls f)
               end) !! l = mkdirs ls f !! l) as ->.
      { destruct (mkdirs ls f !! a); [done|]. by rewrite lookup_insert_ne. }
      rewrite IH. destruct (f !! l); [done|].
      destruct (decide (l ∈ ls)) as [Hin|Hin].
      * rewrite decide_True; [done|]. apply elem_of_cons. by right.
      * rewrite decide_False; [done|]. intros [?|?]%elem_of_cons; done.
Qed.


(** What exists is kept as it is. *)
Lemma mkdirs_keeps (ls : list (list string)) (f : gmap (list string) node)
    (l : list string) (x : node) :
  f !! l = Some x → mkdirs ls f !! l = Some x.
Proof. intros Hl. by rewrite mkdirs_lookup, Hl. Qed.


(** ** The scan of the archive *)

Section Scan.
Context {paths : PathAPI} {sys : Platform}.
Implicit Types (src dest : Path) (f : zip_File) (w : World).

Lemma scanArchive_cons src dest f rest :
  scanArchive src dest (f :: rest) =
  if strings_HasSuffix (Name f) "/" then scanArchive src dest rest
  else
    filePath ← try (Parse (Name f)) FailedParseFilePath;
    (if Equal filePath src then
       rc ← try (Open f) FailedOpenSource;
       os_Create (LocalString dest) FailedCreateDest;;
       io_Copy (Name f) (LocalString dest) rc FailedCopy
     else mret tt);;
    scanArchive src dest rest.
Proof. reflexivity. Qed.

Lemma overwritten_cons (name : string) f (copied : list zip_File)
    (m : gmap (list string) node) :
  overwritten name (f :: copied) m
  = overwritten name copied (<[resolve name := File (default "" (Open f))]> m).
Proof.
  unfold overwritten. rewrite last_cons.
  destruct (last copied); [|done]. by rewrite insert_insert_eq.
Qed.

(** A scan that returns without error has copied exactly the matching
    entries, each in one create-and-copy, in enumeration order. *)
Lemma scanArchive_ok src dest files : ∀ w w',
  scanArchive src dest files w = (Ok tt, w') →
  Forall (λ f, is_Some (Open f)) (List.filter (is_match src) files)
  ∧ trace w' = trace w
      ++ flat_map (copy_events (LocalString dest)) (List.filter (is_match src) files)
  ∧ fs w' = overwritten (LocalString dest) (List.filter (is_match src) files) (fs w).
Proof.
  induction files as [|f rest IH]; intros w w' Hscan.
  - injection Hscan as <-. simpl. by rewrite app_nil_r.
  - rewrite scanArchive_cons in Hscan. simpl List.filter.
    destruct (is_match src f) eqn:Hm; unfold is_match in Hm;
      destruct (strings_HasSuffix (Name f) "/"); simpl in Hm;
      try done; try (by apply IH);
      rewrite bind_run, try_run in Hscan;
      (destruct (Parse (Name f)) as [filePath|]; [|done]);
      rewrite bind_run in Hscan; rewrite Hm in Hscan; [|by apply IH].
    rewrite bind_run, try_run in Hscan.
    destruct (Open f) as [rc|] eqn:Hopen; [|done].
    rewrite bind_run in Hscan. unfold os_Create, io_Copy in Hscan.
    destruct (create_fault _ _); [done|]. simpl in Hscan.
    destruct (copy_fault _ _ _); [done|].
    apply IH in Hscan as (Hall & Htr & Hfs). simpl in Htr, Hfs.
    split; [|split].
    + constructor; [by rewrite Hopen|done].
    + rewrite Htr. simpl. unfold copy_events at 2. rewrite Hopen. simpl.
      by rewrite <- !app_assoc.
    + rewrite overwritten_cons, Hopen. simpl.
      by rewrite Hfs, insert_insert_eq.
Qed.

Lemma scan_event_cons src (name : string) f files e :
  scan_event src name files e → scan_event src name (f :: files) e.
Proof.
  intros [->|(f' & data & Hin & Hm & ->)]; [by left|].
  right. exists f', data. split; [|done]. apply elem_of_cons. by right.
Qed.

(** Whatever the outcome of the scan, and wherever it stops, it creates
    nothing but the destination and copies nothing but matching
    entries. *)
Lemma scanArchive_only_matches src dest files : ∀ w,
  ∃ evs, trace (scanArchive src dest files w).2 = trace w ++ evs
         ∧ Forall (scan_event src (LocalString dest) files) evs.
Proof.
  induction files as [|f rest IH]; intros w.
  - exists []. simpl. by rewrite app_nil_r.
  - assert (∀ w0, ∃ evs,
              trace (scanArchive src dest rest w0).2 = trace w0 ++ evs
              ∧ Forall (scan_event src (LocalString dest) (f :: rest)) evs)
      as IH'.
    { intros w0. destruct (IH w0) as (evs & Htr & Hall). exists evs.
      split; [done|]. eapply Forall_impl; [done|]. apply scan_event_cons. }
    rewrite scanArchive_cons.
    destruct (strings_HasSuffix (Name f) "/") eqn:Hdir; [apply IH'|].
    rewrite bind_run, try_run.
    destruct (Parse (Name f)) as [filePath|] eqn:Hparse;
      [|exists []; simpl; by rewrite app_nil_r].
    rewrite bind_run.
    destruct (Equal filePath src) eqn:Heq; [|apply IH'].
    assert (∀ data, scan_event src (LocalString dest) (f :: rest)
                      (EvCopy (Name f) (LocalString dest) data)) as Hcopy.
    { intros data. right. exists f, data. split; [apply elem_of_cons; by left|].
      split; [|done]. unfold is_match. by rewrite Hdir, Hparse. }
    rewrite bind_run, try_run.
    destruct (Open f) as [rc|]; [|exists []; simpl; by rewrite app_nil_r].
    rewrite bind_run. unfold os_Create, io_Copy.
    destruct (create_fault _ _).
    { exists [EvCreate (LocalString dest)]. split; [done|].
      constructor; [by left|done]. }
    simpl. destruct (copy_fault _ _ _) as [n|].
    { eexists [EvCreate _; EvCopy _ _ _]. simpl. rewrite <- app_assoc.
      split; [done|]. constructor; [by left|]. constructor; [done|done]. }
    match goal with
    | |- context [scanArchive src dest rest ?w0] =>
        destruct (IH' w0) as (evs & Htr & Hall)
    end.
    eexists (EvCreate _ :: EvCopy _ _ _ :: evs). rewrite Htr. simpl.
    rewrite <- !app_assoc. split; [done|].
    constructor; [by left|]. constructor; [done|done].
Qed.

End Scan.

(** ** One placement rule *)

Section Rule.
Context {paths : PathAPI} {sys : Platform}.
Implicit Types (wd root : Path) (files : list zip_File) (place : PlaceRule)
  (w : World).

(** A rule whose destination exists fails at the check of line 129, before
    anything is created. *)
Lemma placeOne_destination_exists wd root files place w relDest :
  Parse (Dest place) = Some relDest →
  is_Some (fs w !! resolve (LocalString relDest)) →
  placeOne wd root files place w
    = (Err (DestinationExists (LocalString relDest)), w).
Proof.
  intros Hd Hex. unfold placeOne. rewrite bind_run, try_run, Hd.
  rewrite bind_run. unfold os_Stat. by rewrite bool_decide_eq_true_2.
Qed.

(** A rule processed without error: both paths parsed, nothing was at
    the destination, one [MkdirAll] for the parent, then the copies. *)
Lemma placeOne_ok wd root files place w w' :
  placeOne wd root files place w = (Ok tt, w') →
  ∃ relDest relSrc,
    Parse (Dest place) = Some relDest
    ∧ Parse (Src place) = Some relSrc
    ∧ fs w !! resolve (LocalString relDest) = None
    ∧ let name := LocalString (Join wd relDest) in
      let copied := List.filter (is_match (Join root relSrc)) files in
      Forall (λ f, is_Some (Open f)) copied
      ∧ trace w' = trace w
          ++ EvMkdirAll (filepath_Dir name) :: flat_map (copy_events name) copied
      ∧ fs w' = overwritten name copied
                  (mkdirs (levels (resolve (filepath_Dir name))) (fs w)).
Proof.
  unfold placeOne. rewrite bind_run, try_run.
  destruct (Parse (Dest place)) as [relDest|]; [|done].
  rewrite bind_run. unfold os_Stat. case_bool_decide as Hex; [done|].
  rewrite bind_run. unfold os_MkdirAll.
  destruct (mkdir_fault _ _); [done|].
  rewrite bind_run, try_run.
  destruct (Parse (Src place)) as [relSrc|]; [|done].
  intros (Hall & Htr & Hfs)%scanArchive_ok. simpl in Htr, Hfs.
  exists relDest, relSrc. repeat split; try done.
  - by apply eq_None_not_Some.
  - by rewrite Htr, <- app_assoc.
Qed.

Lemma overwritten_keeps (name : string) (copied : list zip_File)
    (m : gmap (list string) node) (l : list string) :
  is_Some (m !! l) → is_Some (overwritten name copied m !! l).
Proof.
  unfold overwritten. destruct (last copied); [|done].
  intros Hl. rewrite lookup_insert. by case_decide.
Qed.

(** Placement only adds entries: what exists before a rule exists after
    it. *)
Lemma placeOne_ok_keeps wd root files place w w' (l : list string) :
  placeOne wd root files place w = (Ok tt, w') →
  is_Some (fs w !! l) → is_Some (fs w' !! l).
Proof.
  intros (relDest & relSrc & _ & _ & _ & _ & _ & ->)%placeOne_ok [x Hx].
  apply overwritten_keeps. exists x. by apply mkdirs_keeps.
Qed.

Lemma placeRules_ok_keeps wd root files rules (l : list string) : ∀ w w',
  placeRules wd root files rules w = (Ok tt, w') →
  is_Some (fs w !! l) → is_Some (fs w' !! l).
Proof.
  induction rules as [|place rest IH]; intros w w' Hrun Hl; simpl in Hrun.
  - by injection Hrun as <-.
  - rewrite bind_run in Hrun.
    destruct (placeOne wd root files place w) as [[[]|e|] w1] eqn:Hone;
      [|done|done].
    eapply IH; [done|]. by eapply placeOne_ok_keeps.
Qed.

Lemma placeRules_app wd root files rules1 rules2 w w1 :
  placeRules wd root files rules1 w = (Ok tt, w1) →
  placeRules wd root files (rules1 ++ rules2) w
    = placeRules wd root files rules2 w1.
Proof.
  revert w. induction rules1 as [|place rest IH]; intros w Hrun; simpl in *.
  - by injection Hrun as <-.
  - rewrite bind_run in *.
    destruct (placeOne wd root files place w) as [[[]|e|] w0]; [|done|done].
    by apply IH.
Qed.

End Rule.

(** ** What a rule places *)

Section Placement.
Context {paths : PathAPI} {sys : Platform}.
Implicit Types (wd root : Path) (files : list zip_File) (place : PlaceRule)
  (w : World).

(** C7: for a rule processed without error, the entries copied to the
    rule's destination are exactly the non-directory entries whose parsed
    name equals the content root joined with the rule's source; each of
    them is copied, in enumeration order, to the same destination, and
    the destination ends up with the content of the last one. *)
Theorem placeOne_copies_exact_matches wd root files place w w' :
  placeOne wd root files place w = (Ok tt, w') →
  ∃ relDest relSrc,
    Parse (Dest place) = Some relDest
    ∧ Parse (Src place) = Some relSrc
    ∧ let name := LocalString (Join wd relDest) in
      let copied := List.filter (is_match (Join root relSrc)) files in
      trace w' = trace w
          ++ EvMkdirAll (filepath_Dir name) :: flat_map (copy_events name) copied
      ∧ ∀ f, last copied = Some f →
          ∃ data, Open f = Some data
                  ∧ fs w' !! resolve name = Some (File data).
Proof.
  intros (relDest & relSrc & Hd & Hs & _ & Hall & Htr & Hfs)%placeOne_ok.
  exists relDest, relSrc. do 3 (split; [done|]).
  intros f Hlast. rewrite Forall_forall in Hall.
  destruct (Hall f) as [data Hdata].
  { apply last_Some in Hlast as [l' ->]. apply elem_of_app. right.
    apply list_elem_of_singleton. done. }
  exists data. split; [done|]. rewrite Hfs. unfold overwritten.
  by rewrite Hlast, lookup_insert_eq, Hdata.
Qed.


(** C10: when a rule has placed a file and a later rule of the same
    descriptor names the same destination, the later rule fails with the
    destination-exists error, nothing having been created for it, and
    ends the placement.  The destination, taken from the working
    directory, is assumed to be the entry that the workspace-joined
    path names. *)
Theorem placeRules_conflict_with_own_file
    wd root files place1 mid place2 rest w w1 w2 relDest relSrc :
  Parse (Dest place1) = Some relDest →
  Parse (Src place1) = Some relSrc →
  Dest place2 = Dest place1 →
  resolve (LocalString relDest) = resolve (LocalString (Join wd relDest)) →
  List.filter (is_match (Join root relSrc)) files ≠ [] →
  placeOne wd root files place1 w = (Ok tt, w1) →
  placeRules wd root files mid w1 = (Ok tt, w2) →
  placeOne wd root files place2 w2
    = (Err (DestinationExists (LocalString relDest)), w2)
  ∧ placeRules wd root files (place1 :: mid ++ place2 :: rest) w
    = (Err (DestinationExists (LocalString relDest)), w2).
Proof.
  intros Hd Hs Hsame Hcwd Hmatch Hone Hmid.
  assert (is_Some (fs w2 !! resolve (LocalString relDest))) as Hex.
  { eapply placeRules_ok_keeps; [done|].
    apply placeOne_ok in Hone
      as (relDest' & relSrc' & Hd' & Hs' & _ & _ & _ & ->).
    assert (relDest' = relDest) as -> by congruence.
    assert (relSrc' = relSrc) as -> by congruence.
    rewrite Hcwd. unfold overwritten.
    destruct (last (List.filter _ files)) as [f|] eqn:Hlast.
    - rewrite lookup_insert_eq. by eexists.
    - by apply last_None in Hlast. }
  assert (placeOne wd root files place2 w2
          = (Err (DestinationExists (LocalString relDest)), w2)) as Htwo.
  { apply placeOne_destination_exists; [congruence|done]. }
  split; [done|].
  change (place1 :: mid ++ place2 :: rest)
    with ([place1] ++ (mid ++ place2 :: rest)).
  erewrite placeRules_app; last first.
  { simpl. rewrite bind_run, Hone. done. }
  erewrite placeRules_app; [|done]. simpl. by rewrite bind_run, Htwo.
Qed.

End Placement.

(** ** The record file *)

Section Record.
Context {paths : PathAPI} {sys : Platform}.
Implicit Types (archive : tooth_Archive) (p : Path) (w : World).

Lemma createMetadataFile_ok md w w' :
  createMetadataFile md w = (Ok tt, w') →
  ∃ jsonBytes name,
    MarshalJSON md = Some jsonBytes
    ∧ record_path md = Some name
    ∧ trace w' = trace w ++ [EvWriteFile name jsonBytes]
    ∧ fs w' = <[resolve name := File jsonBytes]> (fs w).
Proof.
  rewrite createMetadataFile_run. unfold record_path.
  destruct (MarshalJSON md) as [jsonBytes|]; [|done].
  destruct ctx_MetadataDir as [metadataDir|]; [|done]. simpl.
  destruct (Parse _) as [fileName|]; [|done]. simpl.
  unfold os_WriteFile. destruct (write_fault _ _ _) as [[]|]; [done|done|].
  intros [= <-]. eexists _, _. by repeat split.
Qed.

(** X9: a successful [Install] ends with the write of the record: the
    post-install commands have succeeded before it, the write is the
    last effect, and the record file holds the serialized descriptor. *)
Lemma Install_ok_record archive p w w' :
  Install archive p w = (Ok tt, w') →
  ∃ jsonBytes name w3,
    MarshalJSON (Metadata archive) = Some jsonBytes
    ∧ record_path (Metadata archive) = Some name
    ∧ (∃ w2, runCommands (PostInstall (Commands (Metadata archive))) w2
             = (Ok tt, w3))
    ∧ trace w' = trace w3 ++ [EvWriteFile name jsonBytes]
    ∧ fs w' !! resolve name = Some (File jsonBytes).
Proof.
  rewrite Install_run. cbv zeta.
  destruct (tooth_IsInstalled _ _) as [[|]|]; [done| |done].
  destruct (runCommands (PreInstall _) w) as [[[]|e|] w1]; [|done|done].
  destruct (AssetURL _) as [assetURL|]; [|done].
  destruct (asset_mismatch p assetURL); [done|].
  destruct (runCommands (PostInstall _) _) as [[[]|e|] w3] eqn:Hpost;
    [|done|done].
  intros (jsonBytes & name & Hj & Hn & Htr & Hfs)%createMetadataFile_ok.
  exists jsonBytes, name, w3. repeat split; try done.
  - by eexists.
  - by rewrite Hfs, lookup_insert_eq.
Qed.

End Record.

(** ** The error of [placeFiles] is dropped *)

Section Dropped.
Context {paths : PathAPI} {sys : Platform}.
Implicit Types (archive : tooth_Archive) (p : Path) (w : World).

(** Later rules are not processed once a rule has failed. *)
Lemma placeRules_destination_exists wd root files place rest w relDest :
  Parse (Dest place) = Some relDest →
  is_Some (fs w !! resolve (LocalString relDest)) →
  placeRules wd root files (place :: rest) w
    = (Err (DestinationExists (LocalString relDest)), w).
Proof.
  intros Hd Hex. simpl. rewrite bind_run.
  by rewrite (placeOne_destination_exists _ _ _ _ _ relDest).
Qed.

(** X8: every error [Install] returns comes from one of its own [return]
    statements; an error of [placeFiles] (path, conflict, directory,
    archive or copy) is never returned by [Install]. *)
Lemma Install_errors archive p w e :
  (Install archive p w).1 = Err e → install_error e.
Proof.
  rewrite Install_run. cbv zeta.
  destruct (tooth_IsInstalled _ _) as [[|]|]; [by intros [= <-]| |by intros [= <-]].
  destruct (runCommands (PreInstall _) w) as [[[]|e1|] w1];
    [|by intros [= <-]|done].
  destruct (AssetURL _) as [assetURL|]; [|by intros [= <-]].
  destruct (asset_mismatch p assetURL); [by intros [= <-]|].
  destruct (runCommands (PostInstall _) _) as [[[]|e3|] w3];
    [|by intros [= <-]|done].
  rewrite createMetadataFile_run.
  destruct (MarshalJSON _); [|by intros [= <-]].
  destruct ctx_MetadataDir; [|by intros [= <-]].
  destruct (Parse _); [|done]. unfold os_WriteFile.
  destruct (write_fault _ _ _) as [[]|]; (done || by intros [= <-]).
Qed.

End Dropped.

(** ** Runs on the concrete platform *)

Section Runs.
Import Unix.
#[local] Existing Instance unix.

(** C1 (the code departs from the claim): the destination [tool] of the
    only rule exists, so [placeFiles] returns the destination-exists
    error; [Install] drops it, runs the post-install command, writes the
    record and returns success. *)
Theorem Install_ignores_placement_failure :
  let md := descriptor "" [] ["echo done"] [tool_rule] in
  placeFiles md tooth_path MakeEmpty occupied
    = (Err (DestinationExists "tool"), occupied)
  ∧ (Install (tooth tooth_path md) MakeEmpty occupied).1 = Ok tt
  ∧ trace (Install (tooth tooth_path md) MakeEmpty occupied).2
    = [EvExec "echo done"; EvWriteFile record_file "{}"].
Proof. vm_compute. by repeat split. Qed.

(** C5 (the code departs from the claim): the first of two rules names
    a destination that exists.  [placeFiles] stops there with the
    destination-exists error, having created nothing, but [Install]
    returns success. *)
Theorem Install_succeeds_over_existing_destination :
  let md := descriptor "" [] [] [tool_rule; copy_rule] in
  fs occupied !! resolve "tool" = Some (File "old")
  ∧ placeFiles md tooth_path MakeEmpty occupied
    = (Err (DestinationExists "tool"), occupied)
  ∧ (Install (tooth tooth_path md) MakeEmpty occupied).1 = Ok tt.
Proof. vm_compute. by repeat split. Qed.

(** C8 (the code departs from the claim): the two rules name the same
    destination, so the placement step fails at the second one; the
    record file is written all the same and [Install] returns success. *)
Theorem Install_records_after_failed_placement :
  let md := descriptor "" [] [] [tool_rule; tool_rule] in
  (placeFiles md tooth_path MakeEmpty fresh).1 = Err (DestinationExists "tool")
  ∧ (Install (tooth tooth_path md) MakeEmpty fresh).1 = Ok tt
  ∧ fs (Install (tooth tooth_path md) MakeEmpty fresh).2
      !! resolve record_file = Some (File "{}")
  ∧ trace (Install (tooth tooth_path md) MakeEmpty fresh).2
    = [EvMkdirAll "/work"; EvCreate "/work/tool";
       EvCopy "bin/tool" "/work/tool" "X"; EvWriteFile record_file "{}"].
Proof. vm_compute. by repeat split. Qed.

(** The exact-match example of section 8: with content root [a/] the
    rule [b.txt -> out.txt] copies [a/b.txt] and never [a/bb.txt]. *)
Example exact_match_placement :
  List.filter (is_match (Join ab_root {| rooted := false; items := ["b.txt"] |}))
    ab_zip = [ {| Name := "a/b.txt"; Open := Some "B" |} ]
  ∧ trace (placeOne work ab_root ab_zip ab_rule fresh).2
    = [EvMkdirAll "/work"; EvCreate "/work/out.txt";
       EvCopy "a/b.txt" "/work/out.txt" "B"]
  ∧ fs (placeOne work ab_root ab_zip ab_rule fresh).2 !! resolve "out.txt"
    = Some (File "B").
Proof. vm_compute. by repeat split. Qed.

(** The scenario of section 8: the file is placed, the record is
    written under the escaped identity, and [Install] succeeds. *)
Example install_scenario :
  let md := descriptor "" [] [] [tool_rule] in
  (Install (tooth tooth_path md) MakeEmpty fresh).1 = Ok tt
  ∧ fs (Install (tooth tooth_path md) MakeEmpty fresh).2 !! resolve "tool"
    = Some (File "X")
  ∧ fs (Install (tooth tooth_path md) MakeEmpty fresh).2
      !! resolve "/work/.lip/metadata/a.b%2Fc.json" = Some (File "{}").
Proof. vm_compute. by repeat split. Qed.

(** C2, the claim as stated fails: with both the supplied path and the
    asset URL empty, and with both non-empty, [Install] succeeds; with
    only the asset URL non-empty it returns the configuration error. *)
Lemma Install_pairing_counterexample :
  let url := "https://example.org/a.zip" in
  (Install (tooth tooth_path (descriptor "" [] [] [tool_rule])) MakeEmpty fresh).1
    = Ok tt
  ∧ (Install (tooth tooth_path (descriptor url [] [] [tool_rule])) twice_path
       fresh).1 = Ok tt
  ∧ IsEmpty twice_path = false
  ∧ (Install (tooth tooth_path (descriptor url [] [] [tool_rule])) MakeEmpty
       fresh).1 = Err AssetConfigMismatch.
Proof. vm_compute. by repeat split. Qed.

(** C3, the claim as stated fails: the call fails with the configuration
    error after the pre-install command has been launched. *)
Lemma Install_config_error_counterexample :
  let md := descriptor "https://example.org/a.zip" ["echo pre"] [] [tool_rule] in
  Install (tooth tooth_path md) MakeEmpty fresh
    = (Err AssetConfigMismatch, mkWorld ∅ [EvExec "echo pre"]).
Proof. vm_compute. reflexivity. Qed.

(** C4, the claim as stated fails: the asset URL is non-empty and the
    supplied path is empty, but the identity is recorded, and the call
    fails with the already-installed error, not the configuration
    error. *)
Lemma Install_exclusive_pairing_counterexample :
  let md := descriptor "https://example.org/a.zip" [] [] [tool_rule] in
  AssetURL md = Some "https://example.org/a.zip"
  ∧ IsEmpty (MakeEmpty : Path) = true
  ∧ (Install (tooth tooth_path md) MakeEmpty recorded).1
    = Err (AlreadyInstalled "a.b/c")
  ∧ (Install (tooth tooth_path md) MakeEmpty recorded).1
    ≠ Err AssetConfigMismatch.
Proof. vm_compute. by repeat split. Qed.

End Runs.

(** ** The theorems at concrete inputs *)

Section Witnesses.
Import Unix.
#[local] Existing Instance unix.

(** The pre-install command of a descriptor with an asset URL has run
    when the call without an asset archive is refused. *)
Lemma Install_config_error_after_pre_install_witness :
  let md := descriptor "https://example.org/a.zip" ["echo pre"] [] [tool_rule] in
  (Install (tooth tooth_path md) MakeEmpty fresh).1 = Err AssetConfigMismatch
  ∧ trace (Install (tooth tooth_path md) MakeEmpty fresh).2 = [EvExec "echo pre"].
Proof.
  intros md.
  assert ((Install (tooth tooth_path md) MakeEmpty fresh).1
          = Err AssetConfigMismatch) as Hcfg by (vm_compute; reflexivity).
  split; [exact Hcfg|].
  exact (proj2 (Install_config_error_after_pre_install
                  (tooth tooth_path md) MakeEmpty fresh Hcfg)).
Defined.

(** An asset URL without an asset archive, on a fresh workspace. *)
Lemma Install_exclusive_pairing_fails_witness :
  let md := descriptor "https://example.org/a.zip" ["echo pre"] [] [tool_rule] in
  (Install (tooth tooth_path md) MakeEmpty fresh).1 = Err AssetConfigMismatch.
Proof.
  intros md.
  refine (proj2 (Install_exclusive_pairing_fails (tooth tooth_path md)
                   MakeEmpty fresh "https://example.org/a.zip" _ _) _ _).
  - reflexivity.
  - left. split; [discriminate|reflexivity].
  - vm_compute; reflexivity.
  - vm_compute; reflexivity.
Defined.

(** A second install of [a.b/c] over its record. *)
Lemma Install_already_installed_witness :
  let md := descriptor "" [] ["echo done"] [tool_rule] in
  tooth_IsInstalled (fs recorded) "a.b/c" = Some true
  ∧ Install (tooth tooth_path md) MakeEmpty recorded
    = (Err (AlreadyInstalled "a.b/c"), recorded).
Proof.
  intros md.
  assert (tooth_IsInstalled (fs recorded) "a.b/c" = Some true) as Hi
    by (vm_compute; reflexivity).
  split; [exact Hi|].
  exact (Install_already_installed (tooth tooth_path md) MakeEmpty recorded Hi).
Defined.

(** Two entries of the archive parse to [bin/tool]; [bin/tools] does not. *)
Lemma placeOne_copies_exact_matches_witness :
  placeOne work MakeEmpty twice_zip tool_rule fresh = (Ok tt, placed_twice)
  ∧ ∃ relDest relSrc,
      Parse (Dest tool_rule) = Some relDest
      ∧ Parse (Src tool_rule) = Some relSrc
      ∧ let name := LocalString (Join work relDest) in
        let copied := List.filter (is_match (Join MakeEmpty relSrc)) twice_zip in
        trace placed_twice = trace fresh
            ++ EvMkdirAll (filepath_Dir name) :: flat_map (copy_events name) copied
        ∧ ∀ f, last copied = Some f →
            ∃ data, Open f = Some data
                    ∧ fs placed_twice !! resolve name = Some (File data).
Proof.
  assert (placeOne work MakeEmpty twice_zip tool_rule fresh
          = (Ok tt, placed_twice)) as Hrun by (vm_compute; reflexivity).
  split; [exact Hrun|].
  exact (placeOne_copies_exact_matches work MakeEmpty twice_zip tool_rule
           fresh placed_twice Hrun).
Defined.


(** The rule for [tool] twice, with another rule in between. *)
Lemma placeRules_conflict_with_own_file_witness :
  placeRules work MakeEmpty twice_zip
    [tool_rule; copy_rule; tool_rule; nomatch_rule] fresh
    = (Err (DestinationExists "tool"), placed_both).
Proof.
  refine (proj2 (placeRules_conflict_with_own_file work MakeEmpty twice_zip
                   tool_rule [copy_rule] tool_rule [nomatch_rule]
                   fresh placed_twice placed_both
                   {| rooted := false; items := ["tool"] |}
                   {| rooted := false; items := ["bin"; "tool"] |}
                   _ _ _ _ _ _ _)).
  - reflexivity.
  - reflexivity.
  - reflexivity.
  - reflexivity.
  - discriminate.
  - vm_compute; reflexivity.
  - vm_compute; reflexivity.
Defined.

End Witnesses.

(** * Further properties of the placement step *)

(** ** Directory tests *)

Lemma substring_whole (s : string) :
  String.substring 0 (String.length s) s = s.
Proof. induction s as [|c s IH]; simpl; [done|]. by rewrite IH. Qed.

Lemma substring_append_suffix (pre suf : string) :
  String.substring (String.length pre) (String.length suf) (pre +:+ suf) = suf.
Proof.
  induction pre as [|c pre IH]; simpl; [apply substring_whole | exact IH].
Qed.

Lemma length_string_append (a b : string) :
  String.length (a +:+ b) = (String.length a + String.length b)%nat.
Proof. induction a as [|c a IH]; simpl; [done|]. by rewrite IH. Qed.

Lemma substring_split (n : nat) : ∀ s : string,
  (n ≤ String.length s)%nat →
  s = String.substring 0 n s +:+ String.substring n (String.length s - n) s.
Proof.
  induction n as [|n IH]; intros s Hn.
  - rewrite Nat.sub_0_r, substring_whole. by destruct s.
  - destruct s as [|c s]; simpl in *; [lia|].
    change (String c s
            = String c (String.substring 0 n s
                        +:+ String.substring n (String.length s - n) s)).
    f_equal. apply IH. lia.
Qed.

(** The test of line 152 holds exactly for the strings that end with the
    given suffix. *)
Lemma strings_HasSuffix_spec (s suffix : string) :
  strings_HasSuffix s suffix = true ↔ ∃ pre, s = pre +:+ suffix.
Proof.
  unfold strings_HasSuffix. split.
  - intros [Hle Heq]%andb_true_iff. apply Nat.leb_le in Hle.
    apply String.eqb_eq in Heq.
    exists (String.substring 0 (String.length s - String.length suffix) s).
    pose proof (substring_split (String.length s - String.length suffix) s
                  ltac:(lia)) as Hs.
    replace (String.length s - (String.length s - String.length suffix))
      with (String.length suffix) in Hs by lia.
    by rewrite Heq in Hs.
  - intros [pre ->]. rewrite length_string_append. apply andb_true_iff. split.
    + apply Nat.leb_le. lia.
    + apply String.eqb_eq.
      replace (String.length pre + String.length suffix - String.length suffix)
        with (String.length pre) by lia.
      apply substring_append_suffix.
Qed.

(** ** The footprint of a rule *)

Section Footprint.
Context {paths : PathAPI} {sys : Platform}.
Implicit Types (wd root : Path) (files : list zip_File) (place : PlaceRule)
  (w : World) (l : list string).

(** One rule, statement by statement. *)
Lemma placeOne_run wd root files place w :
  placeOne wd root files place w =
  match Parse (Dest place) with
  | None => (Err FailedParseDest, w)
  | Some relDest =>
      if bool_decide (is_Some (fs w !! resolve (LocalString relDest)))
      then (Err (DestinationExists (LocalString relDest)), w)
      else
        let dir := filepath_Dir (LocalString (Join wd relDest)) in
        let made n := mkWorld (mkdirs (n (levels (resolve dir))) (fs w))
                        (trace w ++ [EvMkdirAll dir]) in
        match mkdir_fault (fs w) dir with
        | Some n => (Err FailedCreateDestDir, made (take n))
        | None =>
            match Parse (Src place) with
            | None => (Err FailedParseSrc, made id)
            | Some relSrc =>
                scanArchive (Join root relSrc) (Join wd relDest) files (made id)
            end
        end
  end.
Proof.
  unfold placeOne. rewrite bind_run, try_run.
  destruct (Parse (Dest place)) as [relDest|]; [|done].
  rewrite bind_run. unfold os_Stat. case_bool_decide; [done|].
  rewrite bind_run. unfold os_MkdirAll. cbv zeta.
  destruct (mkdir_fault _ _); [done|].
  rewrite bind_run, try_run. by destruct (Parse (Src place)).
Qed.

(** The scan writes to the destination and nowhere else, however it
    ends. *)
Lemma scanArchive_frame src dest files l : ∀ w,
  l ≠ resolve (LocalString dest) →
  fs (scanArchive src dest files w).2 !! l = fs w !! l.
Proof.
  induction files as [|f rest IH]; intros w Hl; [done|].
  rewrite scanArchive_cons.
  destruct (strings_HasSuffix (Name f) "/"); [by apply IH|].
  rewrite bind_run, try_run.
  destruct (Parse (Name f)) as [filePath|]; [|done].
  rewrite bind_run. destruct (Equal filePath src); [|by apply IH].
  rewrite bind_run, try_run. destruct (Open f) as [rc|]; [|done].
  rewrite bind_run. unfold os_Create, io_Copy.
  destruct (create_fault _ _); [done|]. simpl.
  destruct (copy_fault _ _ _); simpl.
  - by rewrite !lookup_insert_ne.
  - rewrite IH by done. simpl. by rewrite !lookup_insert_ne.
Qed.

Lemma scan_event_placement src (name : string) files e :
  scan_event src name files e → placement_event e.
Proof. by intros [->|(f & data & _ & _ & ->)]. Qed.

Lemma mkdirs_frame (ls : list (list string)) (m : gmap (list string) node) l :
  l ∉ ls → mkdirs ls m !! l = m !! l.
Proof.
  intros Hl. rewrite mkdirs_lookup. destruct (m !! l); [done|].
  by rewrite decide_False.
Qed.

Lemma not_elem_of_take (n : nat) (ls : list (list string)) l :
  l ∉ ls → l ∉ take n ls.
Proof.
  intros Hl Hin. apply Hl. rewrite <- (take_drop n ls).
  apply elem_of_app. by left.
Qed.

(** Whatever the outcome of a rule, its effects are placement effects. *)
Lemma placeOne_events wd root files place w :
  ∃ evs, trace (placeOne wd root files place w).2 = trace w ++ evs
         ∧ Forall placement_event evs.
Proof.
  rewrite placeOne_run.
  destruct (Parse (Dest place)) as [relDest|];
    [|exists []; by rewrite app_nil_r].
  case_bool_decide; [exists []; by rewrite app_nil_r|]. cbv zeta.
  destruct (mkdir_fault _ _); [by eexists [_]; split; [|repeat constructor]|].
  destruct (Parse (Src place)) as [relSrc|];
    [|by eexists [_]; split; [|repeat constructor]].
  match goal with
  | |- context [scanArchive ?s ?d files ?w0] =>
      destruct (scanArchive_only_matches s d files w0) as (evs & Htr & Hall)
  end.
  eexists (_ :: evs). rewrite Htr. simpl. rewrite <- app_assoc.
  split; [done|]. constructor; [done|].
  eapply Forall_impl; [done|]. intros e. apply scan_event_placement.
Qed.

(** Whatever the outcome of a rule, a location that is neither its
    destination nor a level of the destination's directory holds what it
    held. *)
Lemma placeOne_frame wd root files place w l :
  dest_loc wd place ≠ Some l → l ∉ parent_levels wd place →
  fs (placeOne wd root files place w).2 !! l = fs w !! l.
Proof.
  unfold dest_loc, parent_levels. rewrite placeOne_run.
  destruct (Parse (Dest place)) as [relDest|]; [|done]. simpl.
  intros Hd Hp. case_bool_decide; [done|]. cbv zeta.
  destruct (mkdir_fault _ _); simpl.
  { apply mkdirs_frame. by apply not_elem_of_take. }
  destruct (Parse (Src place)) as [relSrc|]; simpl; [|by apply mkdirs_frame].
  rewrite scanArchive_frame by congruence. simpl. by apply mkdirs_frame.
Qed.

(** Whatever the outcome of a rule, an entry that is not at its
    destination stays as it is. *)
Lemma placeOne_keeps wd root files place w l (x : node) :
  dest_loc wd place ≠ Some l → fs w !! l = Some x →
  fs (placeOne wd root files place w).2 !! l = Some x.
Proof.
  unfold dest_loc. rewrite placeOne_run.
  destruct (Parse (Dest place)) as [relDest|]; [|done]. simpl.
  intros Hd Hx. case_bool_decide; [done|]. cbv zeta.
  destruct (mkdir_fault _ _); simpl; [by apply mkdirs_keeps|].
  destruct (Parse (Src place)) as [relSrc|]; simpl; [|by apply mkdirs_keeps].
  rewrite scanArchive_frame by congruence. simpl. by apply mkdirs_keeps.
Qed.

(** When the path checked is the path written, a rule changes no entry
    at all that was there before it, however it ends. *)
Lemma placeOne_keeps_checked wd root files place w l (x : node) :
  checked_is_written wd place → fs w !! l = Some x →
  fs (placeOne wd root files place w).2 !! l = Some x.
Proof.
  intros Hlink Hx.
  destruct (Parse (Dest place)) as [relDest|] eqn:Hd;
    [|by rewrite placeOne_run, Hd].
  destruct (decide (is_Some (fs w !! resolve (LocalString relDest)))) as [Hex|Hex].
  - by rewrite (placeOne_destination_exists _ _ _ _ _ relDest).
  - apply placeOne_keeps; [|done]. unfold dest_loc. rewrite Hd. simpl.
    intros [= <-]. apply Hex. rewrite (Hlink _ Hd). by eexists.
Qed.

End Footprint.

(** ** The footprint of the whole placement *)

Section PlacementFootprint.
Context {paths : PathAPI} {sys : Platform}.
Implicit Types (wd root : Path) (files : list zip_File) (place : PlaceRule)
  (rules : list PlaceRule) (w : World) (l : list string).

Lemma placeRules_cons wd root files place rest w :
  placeRules wd root files (place :: rest) w =
  match placeOne wd root files place w with
  | (Ok _, w1) => placeRules wd root files rest w1
  | (Err e, w1) => (Err e, w1)
  | (Panic, w1) => (Panic, w1)
  end.
Proof. reflexivity. Qed.

(** The world after the rules, reached one rule at a time. *)
Lemma placeRules_step wd root files place rest w :
  (placeRules wd root files (place :: rest) w).2
  = (placeOne wd root files place w).2
  ∨ (placeRules wd root files (place :: rest) w).2
    = (placeRules wd root files rest (placeOne wd root files place w).2).2.
Proof.
  rewrite placeRules_cons.
  destruct (placeOne wd root files place w) as [[[]|e|] w1]; auto.
Qed.

Lemma placeRules_events wd root files rules : ∀ w,
  ∃ evs, trace (placeRules wd root files rules w).2 = trace w ++ evs
         ∧ Forall placement_event evs.
Proof.
  induction rules as [|place rest IH]; intros w.
  - exists []. simpl. by rewrite app_nil_r.
  - destruct (placeOne_events wd root files place w) as (evs1 & Htr1 & Hall1).
    destruct (placeRules_step wd root files place rest w) as [-> | ->].
    + by exists evs1.
    + destruct (IH (placeOne wd root files place w).2) as (evs2 & Htr2 & Hall2).
      exists (evs1 ++ evs2). rewrite Htr2, Htr1, app_assoc. split; [done|].
      by apply Forall_app.
Qed.

Lemma placeRules_frame wd root files rules l : ∀ w,
  (∀ place, place ∈ rules →
     dest_loc wd place ≠ Some l ∧ l ∉ parent_levels wd place) →
  fs (placeRules wd root files rules w).2 !! l = fs w !! l.
Proof.
  induction rules as [|place rest IH]; intros w Hout; [done|].
  assert (fs (placeOne wd root files place w).2 !! l = fs w !! l) as Hone.
  { destruct (Hout place) as [Hd Hp]; [apply elem_of_cons; by left|].
    by apply placeOne_frame. }
  destruct (placeRules_step wd root files place rest w) as [-> | ->]; [done|].
  rewrite IH; [done|]. intros place' Hin. apply Hout, elem_of_cons. by right.
Qed.

Lemma placeRules_keeps_checked wd root files rules l (x : node) : ∀ w,
  (∀ place, place ∈ rules → checked_is_written wd place) →
  fs w !! l = Some x →
  fs (placeRules wd root files rules w).2 !! l = Some x.
Proof.
  induction rules as [|place rest IH]; intros w Hlink Hx; [done|].
  assert (fs (placeOne wd root files place w).2 !! l = Some x) as Hone.
  { apply placeOne_keeps_checked; [|done]. apply Hlink, elem_of_cons. by left. }
  destruct (placeRules_step wd root files place rest w) as [-> | ->]; [done|].
  apply IH; [|done]. intros place' Hin. apply Hlink, elem_of_cons. by right.
Qed.

(** [placeFiles], statement by statement. *)
Lemma placeFiles_run md p root w :
  placeFiles md p root w =
  match os_Getwd with
  | None => (Err FailedGetwd, w)
  | Some workspaceDirStr =>
      match Parse workspaceDirStr with
      | None => (Err FailedParseWorkspace, w)
      | Some workspaceDir =>
          match zip_OpenReader (fs w) (LocalString p) with
          | None => (Err FailedOpenArchive, w)
          | Some r => placeRules workspaceDir root r (Place (Files md)) w
          end
      end
  end.
Proof.
  unfold placeFiles. rewrite bind_run, try_run.
  destruct os_Getwd as [s|]; [|done]. rewrite bind_run, try_run.
  destruct (Parse s) as [wd|]; [|done]. rewrite bind_run. unfold zip_open.
  rewrite try_run. by destruct (zip_OpenReader _ _).
Qed.

Lemma placeFiles_events md p root w :
  ∃ evs, trace (placeFiles md p root w).2 = trace w ++ evs
         ∧ Forall placement_event evs.
Proof.
  rewrite placeFiles_run.
  destruct os_Getwd as [s|]; [|exists []; by rewrite app_nil_r].
  destruct (Parse s) as [wd|]; [|exists []; by rewrite app_nil_r].
  destruct (zip_OpenReader _ _) as [r|]; [|exists []; by rewrite app_nil_r].
  apply placeRules_events.
Qed.

(** X1: however [placeFiles] ends, it has only added to the trace, and
    what it added are calls of [os.MkdirAll], [os.Create] and [io.Copy]:
    it launches no command and never calls [os.WriteFile]. *)
Theorem placeFiles_only_places md p root w :
  trace w `prefix_of` trace (placeFiles md p root w).2
  ∧ ∀ e, e ∈ trace (placeFiles md p root w).2 →
      e ∈ trace w ∨ placement_event e.
Proof.
  destruct (placeFiles_events md p root w) as (evs & -> & Hall). split.
  - by exists evs.
  - intros e [Hin|Hin]%elem_of_app; [by left|right].
    rewrite Forall_forall in Hall. by apply Hall.
Qed.

(** X2: when, for every rule, the path checked at line 129 names the
    entry written at line 170, [placeFiles] changes no entry that was
    there before the call, however it ends: existing files and
    directories are never overwritten. *)
Theorem placeFiles_keeps_existing_entries md p root w l (x : node) :
  (∀ wd place, workspace = Some wd → place ∈ Place (Files md) →
     checked_is_written wd place) →
  fs w !! l = Some x →
  fs (placeFiles md p root w).2 !! l = Some x.
Proof.
  intros Hlink Hx. rewrite placeFiles_run. unfold workspace in Hlink.
  destruct os_Getwd as [s|]; [|done]. simpl in Hlink.
  destruct (Parse s) as [wd|]; [|done].
  destruct (zip_OpenReader _ _) as [r|]; [|done].
  apply placeRules_keeps_checked; [|done]. intros place Hin. by apply Hlink.
Qed.

(** X3: however [placeFiles] ends, a location that is neither the
    destination of a rule nor a level of the directory of a destination
    holds exactly what it held before. *)
Theorem placeFiles_footprint md p root w l :
  (∀ wd place, workspace = Some wd → place ∈ Place (Files md) →
     dest_loc wd place ≠ Some l ∧ l ∉ parent_levels wd place) →
  fs (placeFiles md p root w).2 !! l = fs w !! l.
Proof.
  intros Hout. rewrite placeFiles_run. unfold workspace in Hout.
  destruct os_Getwd as [s|]; [|done]. simpl in Hout.
  destruct (Parse s) as [wd|]; [|done].
  destruct (zip_OpenReader _ _) as [r|]; [|done].
  apply placeRules_frame. intros place Hin. by apply Hout.
Qed.

(** X16: with no placement rule, [placeFiles] changes nothing, but it
    still needs the working directory and the archive: it succeeds
    exactly when the workspace is known and the archive opens. *)
Theorem placeFiles_no_rules md p root w :
  Place (Files md) = [] →
  (placeFiles md p root w).2 = w
  ∧ ((placeFiles md p root w).1 = Ok tt ↔
     is_Some workspace ∧ is_Some (zip_OpenReader (fs w) (LocalString p))).
Proof.
  intros Hnone. rewrite placeFiles_run, Hnone. unfold workspace.
  destruct os_Getwd as [s|]; simpl.
  2: { split; [done|]. split; [done|]. by intros [[? [=]] _]. }
  destruct (Parse s) as [wd|]; simpl.
  2: { split; [done|]. split; [done|]. by intros [[? [=]] _]. }
  destruct (zip_OpenReader _ _) as [r|]; simpl.
  - split; [done|]. split; [by intros _; split; eexists|done].
  - split; [done|]. split; [done|]. by intros [_ [? [=]]].
Qed.

End PlacementFootprint.

(** ** Rules in sequence *)

Section Sequence.
Context {paths : PathAPI} {sys : Platform}.
Implicit Types (wd root : Path) (files : list zip_File) (place : PlaceRule)
  (rules : list PlaceRule) (w : World) (l : list string).

Lemma scanArchive_exists src dest files l : ∀ w,
  is_Some (fs w !! l) → is_Some (fs (scanArchive src dest files w).2 !! l).
Proof.
  intros w Hl. destruct (decide (l = resolve (LocalString dest))) as [->|Hne];
    [|by rewrite scanArchive_frame].
  revert w Hl. induction files as [|f rest IH]; intros w Hl; [done|].
  rewrite scanArchive_cons.
  destruct (strings_HasSuffix (Name f) "/"); [by apply IH|].
  rewrite bind_run, try_run.
  destruct (Parse (Name f)) as [filePath|]; [|done].
  rewrite bind_run. destruct (Equal filePath src); [|by apply IH].
  rewrite bind_run, try_run. destruct (Open f) as [rc|]; [|done].
  rewrite bind_run. unfold os_Create, io_Copy.
  destruct (create_fault _ _); [done|]. simpl.
  destruct (copy_fault _ _ _); simpl.
  - rewrite lookup_insert_eq. by eexists.
  - apply IH. simpl. rewrite lookup_insert_eq. by eexists.
Qed.

(** However a rule ends, what existed before it exists after it. *)
Lemma placeOne_exists wd root files place w l :
  is_Some (fs w !! l) → is_Some (fs (placeOne wd root files place w).2 !! l).
Proof.
  intros [x Hx]. rewrite placeOne_run.
  destruct (Parse (Dest place)) as [relDest|]; [|by eexists].
  case_bool_decide; [by eexists|]. cbv zeta.
  destruct (mkdir_fault _ _); simpl; [exists x; by apply mkdirs_keeps|].
  destruct (Parse (Src place)) as [relSrc|]; simpl;
    [|exists x; by apply mkdirs_keeps].
  apply scanArchive_exists. simpl. exists x. by apply mkdirs_keeps.
Qed.

(** X4: the loop over the rules ends at the first rule that fails: the
    error and the world are those of that rule, the rules after it are
    not processed, and nothing is undone: what existed when the failing
    rule started still exists. *)
Theorem placeRules_stops_at_first_failure
    wd root files before place rest w w1 w2 e :
  placeRules wd root files before w = (Ok tt, w1) →
  placeOne wd root files place w1 = (Err e, w2) →
  placeRules wd root files (before ++ place :: rest) w = (Err e, w2)
  ∧ ∀ l, is_Some (fs w1 !! l) → is_Some (fs w2 !! l).
Proof.
  intros Hbefore Hone. split.
  - erewrite placeRules_app; [|done]. by rewrite placeRules_cons, Hone.
  - intros l Hl. replace w2 with (placeOne wd root files place w1).2
      by by rewrite Hone.
    by apply placeOne_exists.
Qed.

(** X5: when the rules before it have been processed and the destination
    of a rule exists, the placement returns the destination-exists error
    and the world is exactly the one the earlier rules left: line 129
    comes before the [MkdirAll] of line 136, and no later rule runs. *)
Theorem placeRules_existing_destination
    wd root files before place rest w w1 relDest :
  placeRules wd root files before w = (Ok tt, w1) →
  Parse (Dest place) = Some relDest →
  is_Some (fs w1 !! resolve (LocalString relDest)) →
  placeRules wd root files (before ++ place :: rest) w
    = (Err (DestinationExists (LocalString relDest)), w1).
Proof.
  intros Hbefore Hd Hex. erewrite placeRules_app; [|done].
  rewrite placeRules_cons.
  by rewrite (placeOne_destination_exists _ _ _ _ _ relDest).
Qed.

Lemma scanArchive_no_match src dest files : ∀ w,
  Forall (λ f, strings_HasSuffix (Name f) "/" = false →
               is_Some (Parse (Name f))) files →
  List.filter (is_match src) files = [] →
  scanArchive src dest files w = (Ok tt, w).
Proof.
  induction files as [|f rest IH]; intros w Hparse Hnone; [done|].
  apply Forall_cons in Hparse as [Hf Hrest]. simpl in Hnone.
  rewrite scanArchive_cons. unfold is_match in Hnone.
  destruct (strings_HasSuffix (Name f) "/"); simpl in Hnone; [by apply IH|].
  destruct Hf as [filePath Hp]; [done|]. rewrite Hp in Hnone.
  rewrite bind_run, try_run, Hp, bind_run.
  destruct (Equal filePath src); [done|]. by apply IH.
Qed.

(** X6: a rule whose source matches no entry succeeds, with the
    [MkdirAll] for the parent of its destination as its only effect,
    provided its two paths parse, nothing is at its destination, the
    directory can be made and the names of the archive's non-directory
    entries parse. *)
Theorem placeOne_no_match_succeeds wd root files place w relDest relSrc :
  Parse (Dest place) = Some relDest →
  Parse (Src place) = Some relSrc →
  fs w !! resolve (LocalString relDest) = None →
  mkdir_fault (fs w) (filepath_Dir (LocalString (Join wd relDest))) = None →
  Forall (λ f, strings_HasSuffix (Name f) "/" = false →
               is_Some (Parse (Name f))) files →
  List.filter (is_match (Join root relSrc)) files = [] →
  placeOne wd root files place w
  = (Ok tt,
     mkWorld
       (mkdirs (levels (resolve (filepath_Dir (LocalString (Join wd relDest)))))
          (fs w))
       (trace w ++ [EvMkdirAll (filepath_Dir (LocalString (Join wd relDest)))])).
Proof.
  intros Hd Hs Hfree Hmk Hparse Hnone. rewrite placeOne_run, Hd.
  rewrite bool_decide_eq_false_2 by (rewrite Hfree; by intros [? [=]]).
  cbv zeta. rewrite Hmk, Hs. by apply scanArchive_no_match.
Qed.

Lemma scanArchive_unparsable src dest files :
  Exists unparsable files → ∀ w, (scanArchive src dest files w).1 ≠ Ok tt.
Proof.
  induction 1 as [f rest [Hdir Hp]|f rest _ IH]; intros w;
    rewrite scanArchive_cons.
  - by rewrite Hdir, bind_run, try_run, Hp.
  - destruct (strings_HasSuffix (Name f) "/"); [apply IH|].
    rewrite bind_run, try_run.
    destruct (Parse (Name f)) as [filePath|]; [|done].
    rewrite bind_run. destruct (Equal filePath src); [|apply IH].
    rewrite bind_run, try_run. destruct (Open f) as [rc|]; [|done].
    rewrite bind_run. unfold os_Create, io_Copy.
    destruct (create_fault _ _); [done|]. simpl.
    destruct (copy_fault _ _ _); [done|]. apply IH.
Qed.

(** X7: an archive with a non-directory entry whose name does not parse
    lets no rule succeed, whether or not the entry has anything to do
    with the rule: line 158 parses every name before comparing it. *)
Theorem placeOne_unparsable_entry wd root files place w :
  Exists unparsable files →
  (placeOne wd root files place w).1 ≠ Ok tt.
Proof.
  intros Hbad. rewrite placeOne_run.
  destruct (Parse (Dest place)) as [relDest|]; [|done].
  case_bool_decide; [done|]. cbv zeta.
  destruct (mkdir_fault _ _); [done|].
  destruct (Parse (Src place)) as [relSrc|]; [|done].
  by apply scanArchive_unparsable.
Qed.

(** X19: after a placement without error in which, for every rule, the
    path checked names the entry written, every rule that matched
    something has its file: the destination of each such rule holds the
    content of the last entry that matches its source. *)
Theorem placeRules_ok_places_every_rule wd root files rules w w' :
  (∀ place, place ∈ rules → checked_is_written wd place) →
  placeRules wd root files rules w = (Ok tt, w') →
  ∀ place relDest relSrc f,
    place ∈ rules →
    Parse (Dest place) = Some relDest →
    Parse (Src place) = Some relSrc →
    last (List.filter (is_match (Join root relSrc)) files) = Some f →
    ∃ data, Open f = Some data
            ∧ fs w' !! resolve (LocalString (Join wd relDest))
              = Some (File data).
Proof.
  revert w. induction rules as [|place0 rest IH];
    intros w Hlink Hrun place relDest relSrc f Hin Hd Hs Hlast.
  { by apply elem_of_nil in Hin. }
  rewrite placeRules_cons in Hrun.
  destruct (placeOne wd root files place0 w) as [[[]|e|] w1] eqn:Hone;
    [|done|done].
  assert (∀ place', place' ∈ rest → checked_is_written wd place') as Hlink'.
  { intros place' Hin'. apply Hlink, elem_of_cons. by right. }
  apply elem_of_cons in Hin as [->|Hin]; [|by eapply IH].
  apply placeOne_ok in Hone
    as (relDest' & relSrc' & Hd' & Hs' & _ & Hall & _ & Hfs).
  assert (relDest' = relDest) as -> by congruence.
  assert (relSrc' = relSrc) as -> by congruence.
  rewrite Forall_forall in Hall. destruct (Hall f) as [data Hdata].
  { apply last_Some in Hlast as [l' ->]. apply elem_of_app. right.
    by apply list_elem_of_singleton. }
  exists data. split; [done|].
  replace w' with (placeRules wd root files rest w1).2 by by rewrite Hrun.
  apply placeRules_keeps_checked; [done|].
  rewrite Hfs. unfold overwritten. by rewrite Hlast, lookup_insert_eq, Hdata.
Qed.

End Sequence.

(** ** The order of the steps of [Install] *)

Section Order.
Context {paths : PathAPI} {sys : Platform}.
Implicit Types (archive : tooth_Archive) (p : Path) (w : World).

Lemma after_placement_events archive p w :
  ∃ placed, trace (after_placement archive p w) = trace w ++ placed
            ∧ Forall placement_event placed.
Proof. apply placeFiles_events. Qed.

Lemma createMetadataFile_err md w e :
  (createMetadataFile md w).1 = Err e →
  e = FailedMarshal ∨ e = FailedMetadataDir ∨ e = FailedCreateMetadata.
Proof.
  rewrite createMetadataFile_run.
  destruct (MarshalJSON md); [|intros [= <-]; auto].
  destruct ctx_MetadataDir; [|intros [= <-]; auto].
  destruct (Parse _); [|done]. unfold os_WriteFile.
  destruct (write_fault _ _ _) as [[]|]; [| |done]; intros [= <-]; auto.
Qed.

Lemma createMetadataFile_panic md w :
  (createMetadataFile md w).1 = Panic →
  Parse (url_QueryEscape (ToothRepoPath md) +:+ ".json") = None
  ∧ (createMetadataFile md w).2 = w.
Proof.
  rewrite createMetadataFile_run.
  destruct (MarshalJSON md); [|done]. destruct ctx_MetadataDir; [|done].
  destruct (Parse _); [|done]. unfold os_WriteFile.
  by destruct (write_fault _ _ _) as [[]|].
Qed.

(** X10: the effects of a successful [Install] come in the order of its
    steps: the pre-install commands, then the placement (directories and
    files only), then the post-install commands, then the one write of
    the record. *)
Theorem Install_ok_trace archive p w w' :
  Install archive p w = (Ok tt, w') →
  ∃ placed jsonBytes name,
    MarshalJSON (Metadata archive) = Some jsonBytes
    ∧ record_path (Metadata archive) = Some name
    ∧ Forall placement_event placed
    ∧ trace w' = trace w
        ++ map EvExec (PreInstall (Commands (Metadata archive)))
        ++ placed
        ++ map EvExec (PostInstall (Commands (Metadata archive)))
        ++ [EvWriteFile name jsonBytes].
Proof.
  rewrite Install_run. cbv zeta.
  destruct (tooth_IsInstalled _ _) as [[|]|]; [done| |done].
  destruct (runCommands (PreInstall _) w) as [[[]|e|] w1] eqn:Hpre;
    [|done|done].
  destruct (AssetURL _) as [assetURL|]; [|done].
  destruct (asset_mismatch p assetURL); [done|].
  destruct (runCommands (PostInstall _) _) as [[[]|e|] w3] eqn:Hpost;
    [|done|done].
  intros (jsonBytes & name & Hj & Hn & Htr & _)%createMetadataFile_ok.
  destruct (after_placement_events archive p w1) as (placed & Hpl & Hall).
  apply runCommands_ok_trace in Hpre, Hpost.
  exists placed, jsonBytes, name. do 3 (split; [done|]).
  by rewrite Htr, Hpost, Hpl, Hpre, <- !app_assoc.
Qed.

(** X11: when [Install] fails at the pre-install commands, the commands
    launched so far are all that happened: no archive is read, nothing is
    placed, no post-install command runs and no record is written. *)
Theorem Install_pre_install_failure archive p w e :
  (Install archive p w).1 = Err (FailedPreInstall e) →
  runCommands (PreInstall (Commands (Metadata archive))) w
    = (Err e, (Install archive p w).2)
  ∧ ∃ n, trace (Install archive p w).2
         = trace w ++ map EvExec (take n (PreInstall (Commands (Metadata archive)))).
Proof.
  pose proof (runCommands_trace (PreInstall (Commands (Metadata archive))) w)
    as Htr.
  rewrite Install_run. cbv zeta.
  destruct (tooth_IsInstalled _ _) as [[|]|]; [done| |done].
  destruct (runCommands (PreInstall _) w) as [[[]|e1|] w1] eqn:Hpre; simpl.
  - destruct (AssetURL _) as [assetURL|]; [|done].
    destruct (asset_mismatch p assetURL); [done|].
    destruct (runCommands (PostInstall _) _) as [[[]|e3|] w3]; [|done|done].
    intros Herr. apply createMetadataFile_err in Herr.
    by destruct Herr as [?|[?|?]].
  - by intros [= ->].
  - done.
Qed.


(** X13: [Install] panics only at [path.MustParse] of line 87: the name
    of the record file does not parse.  By then every command has run and
    the placement is over, and no record is written. *)
Theorem Install_panic archive p w :
  (Install archive p w).1 = Panic →
  Parse (url_QueryEscape (ToothRepoPath (Metadata archive)) +:+ ".json") = None
  ∧ ∃ placed,
      Forall placement_event placed
      ∧ trace (Install archive p w).2 = trace w
          ++ map EvExec (PreInstall (Commands (Metadata archive)))
          ++ placed
          ++ map EvExec (PostInstall (Commands (Metadata archive))).
Proof.
  rewrite Install_run. cbv zeta.
  destruct (tooth_IsInstalled _ _) as [[|]|]; [done| |done].
  pose proof (runCommands_no_panic
                (PreInstall (Commands (Metadata archive))) w) as Hnp1.
  destruct (runCommands (PreInstall _) w) as [[[]|e1|] w1] eqn:Hpre;
    [|done|done].
  destruct (AssetURL _) as [assetURL|]; [|done].
  destruct (asset_mismatch p assetURL); [done|].
  destruct (after_placement_events archive p w1) as (placed & Hpl & Hall).
  pose proof (runCommands_no_panic
                (PostInstall (Commands (Metadata archive)))
                (after_placement archive p w1)) as Hnp3.
  apply runCommands_ok_trace in Hpre.
  destruct (runCommands (PostInstall _) _) as [[[]|e3|] w3] eqn:Hpost;
    [|done|done].
  apply runCommands_ok_trace in Hpost.
  intros [Hparse Hw]%createMetadataFile_panic. split; [done|].
  exists placed. split; [done|].
  by rewrite Hw, Hpost, Hpl, Hpre, <- !app_assoc.
Qed.

(** X14: if the registry reports an identity as installed whenever its
    record file exists, a second [Install] of a descriptor right after a
    successful one fails with the already-installed error and changes
    nothing, whatever asset archive it is given. *)
Theorem Install_twice archive p p' w w' :
  (∀ (f : gmap (list string) node) name,
     record_path (Metadata archive) = Some name →
     is_Some (f !! resolve name) →
     tooth_IsInstalled f (ToothRepoPath (Metadata archive)) = Some true) →
  Install archive p w = (Ok tt, w') →
  Install archive p' w'
    = (Err (AlreadyInstalled (ToothRepoPath (Metadata archive))), w').
Proof.
  intros Hreg Hrun.
  assert (tooth_IsInstalled (fs w') (ToothRepoPath (Metadata archive))
          = Some true) as Hi.
  { revert Hrun. rewrite Install_run. cbv zeta.
    destruct (tooth_IsInstalled (fs w) _) as [[|]|]; [done| |done].
    destruct (runCommands (PreInstall _) w) as [[[]|e|] w1]; [|done|done].
    destruct (AssetURL _) as [assetURL|]; [|done].
    destruct (asset_mismatch p assetURL); [done|].
    destruct (runCommands (PostInstall _) _) as [[[]|e|] w3]; [|done|done].
    intros (jsonBytes & name & _ & Hn & _ & Hfs)%createMetadataFile_ok.
    apply (Hreg _ name Hn). rewrite Hfs, lookup_insert_eq. by eexists. }
  rewrite Install_run. cbv zeta. by rewrite Hi.
Qed.

End Order.

(** ** The further properties at concrete inputs *)

Section MoreWitnesses.
Import Unix.
#[local] Existing Instance unix.

Lemma three_rules_checked (wd : Path) (place : PlaceRule) :
  workspace = Some wd →
  place ∈ [tool_rule; copy_rule; tool_rule] →
  checked_is_written wd place.
Proof.
  intros Hw Hin relDest Hd. vm_compute in Hw. injection Hw as <-.
  repeat (apply elem_of_cons in Hin as [->|Hin]);
    try (by apply elem_of_nil in Hin);
    vm_compute in Hd; injection Hd as <-; vm_compute; reflexivity.
Qed.

(** The notes in the workspace survive a placement that fails at its
    third rule. *)
Lemma placeFiles_keeps_existing_entries_witness :
  let md := descriptor "" [] [] [tool_rule; copy_rule; tool_rule] in
  fs (placeFiles md twice_path MakeEmpty with_notes).2 !! ["work"; "notes.txt"]
  = Some (File "n").
Proof.
  intros md.
  apply (placeFiles_keeps_existing_entries (sys := unix) md twice_path MakeEmpty with_notes).
  - intros wd place. apply three_rules_checked.
  - vm_compute; reflexivity.
Defined.

Lemma placeFiles_footprint_witness :
  let md := descriptor "" [] [] [tool_rule; copy_rule] in
  fs (placeFiles md twice_path MakeEmpty with_notes).2 !! ["work"; "notes.txt"]
  = fs with_notes !! ["work"; "notes.txt"].
Proof.
  intros md.
  apply (placeFiles_footprint (sys := unix) md twice_path MakeEmpty with_notes).
  intros wd place Hw Hin. vm_compute in Hw. injection Hw as <-.
  repeat (apply elem_of_cons in Hin as [->|Hin]);
    try (by apply elem_of_nil in Hin).
  - split; [vm_compute; discriminate|].
    change (parent_levels (sys := unix) work tool_rule) with [["work"]].
    intros Hl. apply list_elem_of_singleton in Hl. discriminate.
  - split; [vm_compute; discriminate|].
    change (parent_levels (sys := unix) work copy_rule) with [["work"]; ["work"; "opt"]].
    intros Hl. repeat (apply elem_of_cons in Hl as [Hl|Hl]; [discriminate|]).
    by apply elem_of_nil in Hl.
Defined.

Lemma placeFiles_no_rules_witness :
  let md := descriptor "" [] [] [] in
  (placeFiles md missing_path MakeEmpty with_notes).2 = with_notes
  ∧ ((placeFiles md missing_path MakeEmpty with_notes).1 = Ok tt ↔
     is_Some workspace
     ∧ is_Some (zip_OpenReader (fs with_notes) (LocalString missing_path))).
Proof.
  intros md. by apply (placeFiles_no_rules (sys := unix) md missing_path MakeEmpty with_notes).
Defined.

Lemma placeRules_stops_at_first_failure_witness :
  placeRules work MakeEmpty twice_zip
    ([tool_rule] ++ tool_rule :: [nomatch_rule]) fresh
  = (Err (DestinationExists "tool"), placed_twice).
Proof.
  refine (proj1 (placeRules_stops_at_first_failure (sys := unix) work MakeEmpty twice_zip
                   [tool_rule] tool_rule [nomatch_rule] fresh placed_twice
                   placed_twice (DestinationExists "tool") _ _));
    vm_compute; reflexivity.
Defined.

Lemma placeRules_existing_destination_witness :
  placeRules work MakeEmpty twice_zip
    ([copy_rule] ++ tool_rule :: [nomatch_rule]) occupied
  = (Err (DestinationExists "tool"),
     (placeRules work MakeEmpty twice_zip [copy_rule] occupied).2).
Proof.
  apply (placeRules_existing_destination (sys := unix) work MakeEmpty twice_zip
           [copy_rule] tool_rule [nomatch_rule] occupied _
           {| rooted := false; items := ["tool"] |}).
  - vm_compute; reflexivity.
  - reflexivity.
  - vm_compute. by eexists.
Defined.

Lemma placeOne_no_match_succeeds_witness :
  (placeOne work MakeEmpty twice_zip nomatch_rule fresh).1 = Ok tt.
Proof.
  rewrite (placeOne_no_match_succeeds (sys := unix) work MakeEmpty twice_zip nomatch_rule
             fresh {| rooted := false; items := ["a"; "b"; "none"] |}
             {| rooted := false; items := ["bin"; "none"] |}); try reflexivity.
  repeat constructor; intros _; by eexists.
Defined.

Lemma placeRules_ok_places_every_rule_witness :
  ∃ data, Open {| Name := "./bin/tool"; Open := Some "Y" |} = Some data
          ∧ fs placed_both
              !! resolve (LocalString
                            (Join work {| rooted := false; items := ["tool"] |}))
            = Some (File data).
Proof.
  apply (placeRules_ok_places_every_rule (sys := unix) work MakeEmpty twice_zip
           [tool_rule; copy_rule] fresh placed_both)
    with (place := tool_rule)
         (relSrc := {| rooted := false; items := ["bin"; "tool"] |});
    try (vm_compute; reflexivity).
  - intros place Hin. apply three_rules_checked; [reflexivity|].
    apply elem_of_cons in Hin as [->|Hin]; [apply elem_of_cons; by left|].
    apply list_elem_of_singleton in Hin as ->.
    apply elem_of_cons. right. apply elem_of_cons. by left.
  - apply elem_of_cons. by left.
Defined.

Lemma Install_errors_witness :
  let md := descriptor "" [] [] [tool_rule] in
  install_error (AlreadyInstalled "a.b/c").
Proof.
  intros md.
  apply (Install_errors (tooth tooth_path md) MakeEmpty recorded).
  vm_compute; reflexivity.
Defined.

Lemma Install_ok_record_witness :
  let md := descriptor "" [] ["echo done"] [tool_rule] in
  ∃ jsonBytes name w3,
    MarshalJSON md = Some jsonBytes
    ∧ record_path md = Some name
    ∧ (∃ w2, runCommands (PostInstall (Commands md)) w2 = (Ok tt, w3))
    ∧ trace (Install (tooth tooth_path md) MakeEmpty fresh).2
      = trace w3 ++ [EvWriteFile name jsonBytes]
    ∧ fs (Install (tooth tooth_path md) MakeEmpty fresh).2 !! resolve name
      = Some (File jsonBytes).
Proof.
  intros md.
  apply (Install_ok_record (tooth tooth_path md) MakeEmpty fresh).
  vm_compute; reflexivity.
Defined.

Lemma Install_ok_trace_witness :
  let md := descriptor "" ["echo pre"] ["echo done"] [tool_rule] in
  ∃ placed jsonBytes name,
    MarshalJSON md = Some jsonBytes
    ∧ record_path md = Some name
    ∧ Forall placement_event placed
    ∧ trace (Install (tooth tooth_path md) MakeEmpty fresh).2
      = trace fresh ++ map EvExec ["echo pre"] ++ placed
          ++ map EvExec ["echo done"] ++ [EvWriteFile name jsonBytes].
Proof.
  intros md.
  apply (Install_ok_trace (tooth tooth_path md) MakeEmpty fresh).
  vm_compute; reflexivity.
Defined.

Lemma Install_pre_install_failure_witness :
  let md := descriptor "" ["echo a"; "false"; "echo b"] [] [tool_rule] in
  ∃ n, trace (Install (tooth tooth_path md) MakeEmpty fresh).2
       = trace fresh ++ map EvExec (take n ["echo a"; "false"; "echo b"]).
Proof.
  intros md.
  apply (Install_pre_install_failure (tooth tooth_path md) MakeEmpty fresh
           (CommandFailed "false")).
  vm_compute; reflexivity.
Defined.


Lemma Install_twice_witness :
  let md := descriptor "" [] [] [tool_rule] in
  Install (tooth tooth_path md) twice_path
    (Install (tooth tooth_path md) MakeEmpty fresh).2
  = (Err (AlreadyInstalled "a.b/c"),
     (Install (tooth tooth_path md) MakeEmpty fresh).2).
Proof.
  intros md.
  apply (Install_twice (tooth tooth_path md) MakeEmpty twice_path fresh).
  - intros f name Hn Hex.
    assert (record_path md = Some record_file) as Hrec
      by (vm_compute; reflexivity).
    change (record_path md = Some name) in Hn.
    rewrite Hrec in Hn. injection Hn as <-.
    change (Some (bool_decide
                    (is_Some (f !! unix_resolve (record_name "a.b/c"))))
            = Some true).
    replace (unix_resolve (record_name "a.b/c")) with (resolve record_file)
      by (vm_compute; reflexivity).
    by rewrite bool_decide_eq_true_2.
  - vm_compute; reflexivity.
Defined.

End MoreWitnesses.

Section PickyWitnesses.
Import Unix Picky.

(** The entry [C:/boot] is refused by a parser that rejects colons: the
    rule for [bin/tool] fails although its own entry is fine. *)
Lemma placeOne_unparsable_entry_witness :
  (placeOne (sys := Picky.platform ":" table) work MakeEmpty drive_zip
     tool_rule fresh).1 ≠ Ok tt.
Proof.
  apply (placeOne_unparsable_entry (sys := Picky.platform ":" table)).
  apply Exists_cons_tl, Exists_cons_hd. split; vm_compute; reflexivity.
Defined.

(** The escaped identity [a.b%2Fc.json] is refused by a parser that
    rejects percent signs. *)
Lemma Install_panic_witness :
  let md := descriptor "" [] [] [] in
  (Install (sys := Picky.platform "%" table) (Picky.tooth "%" md) no_path
     fresh).1 = Panic
  ∧ Parse (PathAPI := Picky.path_api "%") (query_escape "a.b/c" +:+ ".json")
    = None.
Proof.
  intros md.
  assert ((Install (sys := Picky.platform "%" table) (Picky.tooth "%" md)
             no_path fresh).1 = Panic) as Hp by (vm_compute; reflexivity).
  split; [exact Hp|].
  exact (proj1 (Install_panic (sys := Picky.platform "%" table) _ _ _ Hp)).
Defined.

End PickyWitnesses.

(** ** When a rule succeeds, and which archive is read *)

Section Success.
Context {paths : PathAPI} {sys : Platform}.
Implicit Types (wd root src dest : Path) (files : list zip_File)
  (place : PlaceRule) (w : World).

Lemma scanArchive_ok_parses src dest files : ∀ w w',
  scanArchive src dest files w = (Ok tt, w') →
  Forall (λ f, strings_HasSuffix (Name f) "/" = false →
               is_Some (Parse (Name f))) files.
Proof.
  induction files as [|f rest IH]; intros w w' Hscan; [done|].
  rewrite scanArchive_cons in Hscan.
  destruct (strings_HasSuffix (Name f) "/") eqn:Hdir.
  { constructor; [by rewrite Hdir|]. by eapply IH. }
  rewrite bind_run, try_run in Hscan.
  destruct (Parse (Name f)) as [filePath|] eqn:Hp; [|done].
  constructor; [simpl; intros _; rewrite Hp; by eexists|].
  rewrite bind_run in Hscan.
  destruct (Equal filePath src); [|exact (IH _ _ Hscan)].
  rewrite bind_run, try_run in Hscan. destruct (Open f) as [rc|]; [|done].
  rewrite bind_run in Hscan. unfold os_Create, io_Copy in Hscan.
  destruct (create_fault _ _); [done|]. simpl in Hscan.
  destruct (copy_fault _ _ _); [done|]. exact (IH _ _ Hscan).
Qed.

Lemma scanArchive_succeeds src dest files :
  (∀ f n, create_fault f n = false) →
  (∀ f n d, copy_fault f n d = None) →
  Forall (λ f, strings_HasSuffix (Name f) "/" = false →
               is_Some (Parse (Name f))) files →
  Forall (λ f, is_Some (Open f)) (List.filter (is_match src) files) →
  ∀ w, (scanArchive src dest files w).1 = Ok tt.
Proof.
  intros Hcreate Hcopy. induction files as [|f rest IH];
    intros Hparse Hopen w; [done|].
  apply Forall_cons in Hparse as [Hf Hrest]. simpl in Hopen.
  rewrite scanArchive_cons. unfold is_match in Hopen.
  destruct (strings_HasSuffix (Name f) "/"); simpl in Hopen; [by apply IH|].
  destruct Hf as [filePath Hp]; [done|]. rewrite Hp in Hopen.
  rewrite bind_run, try_run, Hp, bind_run.
  destruct (Equal filePath src); [|by apply IH].
  apply Forall_cons in Hopen as [[rc Hrc] Hopen].
  rewrite bind_run, try_run, Hrc, bind_run. unfold os_Create, io_Copy.
  rewrite Hcreate. simpl. rewrite Hcopy. by apply IH.
Qed.

(** X18: on a system where making directories, creating files and
    copying never fail, a rule succeeds exactly when its destination and
    source parse, nothing is at the destination, the name of every
    non-directory entry of the archive parses, and every entry that
    matches the source can be opened. *)
Theorem placeOne_ok_iff wd root files place w :
  (∀ f n, mkdir_fault f n = None) →
  (∀ f n, create_fault f n = false) →
  (∀ f n d, copy_fault f n d = None) →
  (placeOne wd root files place w).1 = Ok tt ↔
  ∃ relDest relSrc,
    Parse (Dest place) = Some relDest
    ∧ Parse (Src place) = Some relSrc
    ∧ fs w !! resolve (LocalString relDest) = None
    ∧ Forall (λ f, strings_HasSuffix (Name f) "/" = false →
                   is_Some (Parse (Name f))) files
    ∧ Forall (λ f, is_Some (Open f))
        (List.filter (is_match (Join root relSrc)) files).
Proof.
  intros Hmk Hcreate Hcopy. split.
  - intros Hok.
    destruct (placeOne wd root files place w) as [[[]|e|] w'] eqn:Hrun;
      try done.
    pose proof Hrun as (relDest & relSrc & Hd & Hs & Hfree & Hopen & _)%placeOne_ok.
    exists relDest, relSrc. do 3 (split; [done|]). split; [|done].
    rewrite placeOne_run, Hd in Hrun.
    rewrite bool_decide_eq_false_2 in Hrun
      by (rewrite Hfree; by intros [? [=]]).
    cbv zeta in Hrun. rewrite Hmk, Hs in Hrun.
    by eapply scanArchive_ok_parses.
  - intros (relDest & relSrc & Hd & Hs & Hfree & Hparse & Hopen).
    rewrite placeOne_run, Hd.
    rewrite bool_decide_eq_false_2 by (rewrite Hfree; by intros [? [=]]).
    cbv zeta. rewrite Hmk, Hs. by apply scanArchive_succeeds.
Qed.

(** X15: an entry whose name ends with a slash is skipped before its name
    is parsed or compared: it is never copied, even when its parsed name
    equals the expected source path. *)
Theorem scanArchive_skips_directories src dest (f : zip_File) rest :
  (∃ pre, Name f = pre +:+ "/") →
  is_match src f = false
  ∧ scanArchive src dest (f :: rest) = scanArchive src dest rest.
Proof.
  intros Hdir%strings_HasSuffix_spec. unfold is_match.
  by rewrite scanArchive_cons, Hdir.
Qed.

(** X17: with a non-empty asset-archive path, [Install] reads that
    archive at its root and nothing of the tooth archive but the
    descriptor: two tooth archives with the same descriptor are installed
    alike, whatever their file and content root. *)
Theorem Install_asset_archive_only (archive1 archive2 : tooth_Archive)
    (p : Path) w :
  Metadata archive1 = Metadata archive2 →
  IsEmpty p = false →
  Install archive1 p w = Install archive2 p w.
Proof.
  intros Hmd Hp. rewrite !Install_run. cbv zeta.
  unfold after_placement, asset_source. by rewrite Hmd, Hp.
Qed.

End Success.

Section SuccessWitnesses.
Import Unix.
#[local] Existing Instance unix.

(** The rule for [bin/tool] on an empty workspace. *)
Lemma placeOne_ok_iff_witness :
  (placeOne work MakeEmpty twice_zip tool_rule fresh).1 = Ok tt ↔
  ∃ relDest relSrc,
    Parse (Dest tool_rule) = Some relDest
    ∧ Parse (Src tool_rule) = Some relSrc
    ∧ fs fresh !! resolve (LocalString relDest) = None
    ∧ Forall (λ f, strings_HasSuffix (Name f) "/" = false →
                   is_Some (Parse (Name f))) twice_zip
    ∧ Forall (λ f, is_Some (Open f))
        (List.filter (is_match (Join MakeEmpty relSrc)) twice_zip).
Proof.
  by apply (placeOne_ok_iff (sys := unix) work MakeEmpty twice_zip tool_rule
              fresh).
Defined.

(** The entry [bin/tool/] parses to the source [bin/tool] and is skipped
    all the same. *)
Lemma scanArchive_skips_directories_witness :
  let f := {| Name := "bin/tool/"; Open := Some "D" |} in
  let src := {| rooted := false; items := ["bin"; "tool"] |} in
  (∃ filePath, Parse (Name f) = Some filePath ∧ Equal filePath src = true)
  ∧ is_match src f = false
  ∧ scanArchive src work (f :: tool_zip) = scanArchive src work tool_zip.
Proof.
  intros f src. split; [eexists; split; reflexivity|].
  apply (scanArchive_skips_directories (sys := unix)). by exists "bin/tool".
Defined.

(** The asset archive [twice.zip] with two different tooth archives. *)
Lemma Install_asset_archive_only_witness :
  let md := descriptor "https://example.org/a.zip" [] [] [tool_rule] in
  Install (tooth tooth_path md) twice_path fresh
  = Install (tooth missing_path md) twice_path fresh.
Proof.
  intros md. by apply Install_asset_archive_only.
Defined.

End SuccessWitnesses.
